(** * CyTTY: UART message formatting and socket send paths

    A shallow embedding of [cytty.py]: the [UARTFormatSettings] formatter,
    the [ServerConnectionThread] and [SpeechRecognitionThread] workers and
    the two manual send slots of [SpeechRecognitionGUI], together with the
    Python built-ins they rest on ([str.encode], [bytes.decode],
    [bytes.hex], [bytes.fromhex], [str.strip], [str.replace]). *)

From Stdlib Require Import NArith List Bool Lia.
From Stdlib Require Import ZArith.
From Stdlib Require Import Strings.String Strings.Ascii Strings.Byte.
From Stdlib Require Import DecimalString HexadecimalString.
Import ListNotations.

Local Open Scope N_scope.

(** ** Python values *)

(** A Python [str] is a sequence of code points, [0 .. 0x10FFFF]; lone
    surrogates ([0xD800 .. 0xDFFF]) are legal elements of a [str]. *)
Definition codepoint := N.
Definition str := list codepoint.
Definition bytes := list byte.

(** An ASCII literal of the source as a [str]. *)
Fixpoint lit (s : string) : str :=
  match s with
  | EmptyString => []
  | String a r => N_of_ascii a :: lit r
  end.

Definition CR : codepoint := 13.
Definition LF : codepoint := 10.
Definition SPACE : codepoint := 32.

(** The exception classes that the modelled code can see. *)
Inductive exn : Type :=
| UnicodeEncodeError
| UnicodeDecodeError
| ValueError
| TypeError
| AttributeError
| OSError
| UnknownValueError
| RequestError
| WaitTimeoutError.

(** [isinstance(e, ValueError)]: the two Unicode errors derive from it. *)
Definition is_ValueError (e : exn) : bool :=
  match e with
  | ValueError | UnicodeEncodeError | UnicodeDecodeError => true
  | _ => false
  end.

Definition is_UnicodeDecodeError (e : exn) : bool :=
  match e with UnicodeDecodeError => true | _ => false end.

(** The result of evaluating an expression: a value or a raised exception. *)
Inductive result (A : Type) : Type :=
| Ok (a : A)
| Raise (e : exn).
Arguments Ok {A} a.
Arguments Raise {A} e.

Definition rbind {A B} (r : result A) (k : A -> result B) : result B :=
  match r with
  | Ok a => k a
  | Raise e => Raise e
  end.

Definition rmap {A B} (f : A -> B) (r : result A) : result B :=
  rbind r (fun a => Ok (f a)).

Notation "'let?' x ':=' r 'in' k" := (rbind r (fun x => k))
  (at level 10, x name, r at level 100, k at level 200).

(** ** Bytes *)

(** The byte with the given value; every call site passes a value below 256. *)
Definition byte_of_N (n : N) : byte :=
  match Byte.of_N (n mod 256) with
  | Some b => b
  | None => x00
  end.

Definition bor (a b : N) : byte := byte_of_N (N.lor a b).

(** ** [str.encode('utf-8')], strict error handling *)

Definition is_surrogate (c : codepoint) : bool :=
  (0xD800 <=? c) && (c <=? 0xDFFF).

(** A code point that is not a surrogate: these are the encodable ones. *)
Definition is_scalar (c : codepoint) : bool :=
  negb (is_surrogate c) && (c <=? 0x10FFFF).

Definition cont (c : N) (shift : N) : byte :=
  bor 0x80 (N.land (N.shiftr c shift) 0x3F).

Definition utf8_encode_cp (c : codepoint) : result bytes :=
  if c <? 0x80 then Ok [byte_of_N c]
  else if c <? 0x800 then Ok [bor 0xC0 (N.shiftr c 6); cont c 0]
  else if c <? 0x10000 then
    if is_surrogate c then Raise UnicodeEncodeError
    else Ok [bor 0xE0 (N.shiftr c 12); cont c 6; cont c 0]
  else if c <=? 0x10FFFF then
    Ok [bor 0xF0 (N.shiftr c 18); cont c 12; cont c 6; cont c 0]
  else Raise UnicodeEncodeError.

Fixpoint utf8_encode (s : str) : result bytes :=
  match s with
  | [] => Ok []
  | c :: r =>
      let? b := utf8_encode_cp c in
      let? bs := utf8_encode r in
      Ok (b ++ bs)
  end.

(** ** [bytes.hex()] and [bytes.fromhex()] *)

Definition hexdigit (n : N) : codepoint :=
  if n <? 10 then 48 + n else 87 + n.

(** The two lower-case digits of one byte, as in [f'{b:02x}']. *)
Definition hex2 (b : byte) : str :=
  [hexdigit (Byte.to_N b / 16); hexdigit (Byte.to_N b mod 16)].

Definition bytes_hex (b : bytes) : str := flat_map hex2 b.

(** Value of a hexadecimal digit, [None] for any other character
    (non-ASCII characters included). *)
Definition digit_value (c : codepoint) : option N :=
  if (48 <=? c) && (c <=? 57) then Some (c - 48)
  else if (97 <=? c) && (c <=? 102) then Some (c - 87)
  else if (65 <=? c) && (c <=? 70) then Some (c - 55)
  else None.

Definition is_hexdigit (c : codepoint) : bool :=
  match digit_value c with Some _ => true | None => false end.

(** [Py_ISSPACE]: the six ASCII whitespace characters. *)
Definition is_ascii_space (c : codepoint) : bool :=
  (c =? 32) || ((9 <=? c) && (c <=? 13)).

(** [bytes.fromhex]: ASCII whitespace is skipped between byte pairs, never
    inside one; anything else that is not a pair of hex digits raises
    [ValueError]. *)
Fixpoint bytes_fromhex (s : str) : result bytes :=
  match s with
  | [] => Ok []
  | c :: rest =>
      if is_ascii_space c then bytes_fromhex rest
      else
        match digit_value c, rest with
        | Some top, d :: rest' =>
            match digit_value d with
            | Some bot =>
                let? tl := bytes_fromhex rest' in
                Ok (byte_of_N (16 * top + bot) :: tl)
            | None => Raise ValueError
            end
        | _, _ => Raise ValueError
        end
  end.

(** ** [UARTFormatSettings] *)

Inductive Parity : Type := ParityN | ParityE | ParityO.
Inductive StopBits : Type := Stop1 | Stop1_5 | Stop2.

Record UARTFormatSettings : Type := mkUART {
  data_bits : N;
  parity : Parity;
  stop_bits : StopBits;
  baud_rate : N;
  add_cr : bool;
  add_lf : bool;
  hex_output : bool
}.

(** [UARTFormatSettings.__init__] *)
Definition default_settings : UARTFormatSettings :=
  mkUART 8 ParityN Stop1 9600 false true false.

(** The argument of [format_message] is dynamically typed; the body tests
    [isinstance(message, str)]. *)
Inductive message : Type :=
| MStr (s : str)
| MBytes (b : bytes).

(** [message + suffix] for a [str] suffix. *)
Definition concat_str (m : message) (suffix : str) : result message :=
  match m with
  | MStr s => Ok (MStr (s ++ suffix))
  | MBytes _ => Raise TypeError
  end.

Definition format_message (self : UARTFormatSettings) (m : message)
  : result bytes :=
  let? m :=
    (if add_cr self && add_lf self then concat_str m [CR; LF]
     else if add_cr self then concat_str m [CR]
     else if add_lf self then concat_str m [LF]
     else Ok m) in
  let? b :=
    (match m with
     | MStr s => utf8_encode s
     | MBytes b => Ok b
     end) in
  if hex_output self then bytes_fromhex (bytes_hex b)
  else Ok b.

(** ** [bytes.decode('utf-8')], strict error handling *)

Definition is_cont (b : byte) : bool :=
  (0x80 <=? Byte.to_N b) && (Byte.to_N b <=? 0xBF).

Definition low6 (b : byte) : N := N.land (Byte.to_N b) 0x3F.

(** The decoder accepts exactly the well-formed sequences: no overlong
    forms, no surrogates, nothing above [0x10FFFF], no truncated tail. *)
Fixpoint utf8_decode (b : bytes) : result str :=
  match b with
  | [] => Ok []
  | b0 :: r =>
      let c0 := Byte.to_N b0 in
      if c0 <? 0x80 then
        let? s := utf8_decode r in Ok (c0 :: s)
      else if c0 <? 0xC2 then Raise UnicodeDecodeError
      else if c0 <? 0xE0 then
        match r with
        | b1 :: r1 =>
            if is_cont b1 then
              let? s := utf8_decode r1 in
              Ok (N.shiftl (N.land c0 0x1F) 6 + low6 b1 :: s)
            else Raise UnicodeDecodeError
        | _ => Raise UnicodeDecodeError
        end
      else if c0 <? 0xF0 then
        match r with
        | b1 :: b2 :: r2 =>
            if is_cont b1 && is_cont b2
               && negb ((c0 =? 0xE0) && (Byte.to_N b1 <? 0xA0))
               && negb ((c0 =? 0xED) && (0xA0 <=? Byte.to_N b1)) then
              let? s := utf8_decode r2 in
              Ok (N.shiftl (N.land c0 0x0F) 12 + N.shiftl (low6 b1) 6
                  + low6 b2 :: s)
            else Raise UnicodeDecodeError
        | _ => Raise UnicodeDecodeError
        end
      else if c0 <? 0xF5 then
        match r with
        | b1 :: b2 :: b3 :: r3 =>
            if is_cont b1 && is_cont b2 && is_cont b3
               && negb ((c0 =? 0xF0) && (Byte.to_N b1 <? 0x90))
               && negb ((c0 =? 0xF4) && (0x90 <=? Byte.to_N b1)) then
              let? s := utf8_decode r3 in
              Ok (N.shiftl (N.land c0 0x07) 18 + N.shiftl (low6 b1) 12
                  + N.shiftl (low6 b2) 6 + low6 b3 :: s)
            else Raise UnicodeDecodeError
        | _ => Raise UnicodeDecodeError
        end
      else Raise UnicodeDecodeError
  end.

(** ** [str.strip()], [str.replace(' ', '')], truthiness, [' '.join] *)

(** [Py_UNICODE_ISSPACE]: the characters [str.strip()] removes. *)
Definition is_unicode_space (c : codepoint) : bool :=
  ((0x09 <=? c) && (c <=? 0x0D)) || ((0x1C <=? c) && (c <=? 0x20))
  || (c =? 0x85) || (c =? 0xA0) || (c =? 0x1680)
  || ((0x2000 <=? c) && (c <=? 0x200A))
  || (c =? 0x2028) || (c =? 0x2029) || (c =? 0x202F) || (c =? 0x205F)
  || (c =? 0x3000).

Fixpoint lstrip (s : str) : str :=
  match s with
  | [] => []
  | c :: r => if is_unicode_space c then lstrip r else s
  end.

Definition rstrip (s : str) : str := rev (lstrip (rev s)).

Definition strip (s : str) : str := lstrip (rstrip s).

(** [s.replace(' ', '')] *)
Definition remove_spaces (s : str) : str :=
  filter (fun c => negb (c =? SPACE)) s.

(** [if s:] *)
Definition truthy {A} (l : list A) : bool :=
  match l with [] => false | _ => true end.

(** [' '.join(f'{b:02x}' for b in data)] *)
Fixpoint hex_repr (data : bytes) : str :=
  match data with
  | [] => []
  | [b] => hex2 b
  | b :: r => hex2 b ++ SPACE :: hex_repr r
  end.

(** Truth value of an attribute that holds an object or [None]. *)
Definition is_some {A} (o : option A) : bool :=
  match o with Some _ => true | None => false end.

(** ** A state-and-exception monad for the methods of the objects *)

Definition M (S A : Type) : Type := S -> result A * S.

Definition ret {S A} (a : A) : M S A := fun s => (Ok a, s).

Definition bind {S A B} (m : M S A) (k : A -> M S B) : M S B :=
  fun s =>
    match m s with
    | (Ok a, s') => k a s'
    | (Raise e, s') => (Raise e, s')
    end.

Definition lift {S A} (r : result A) : M S A := fun s => (r, s).

Definition get {S} : M S S := fun s => (Ok s, s).

Definition modify {S} (f : S -> S) : M S unit := fun s => (Ok tt, f s).

(** [try: body / except <classes> as e: handler e]; mutations made by the
    body before it raised stay in place. *)
Definition try_except {S A} (body : M S A) (catches : exn -> bool)
    (handler : exn -> M S A) : M S A :=
  fun s =>
    match body s with
    | (Raise e, s') => if catches e then handler e s' else (Raise e, s')
    | ok => ok
    end.

(** [except Exception] and the bare [except:] catch every class above. *)
Definition any_exception (_ : exn) : bool := true.

Notation "x <- c ;; k" := (bind c (fun x => k))
  (at level 61, c at next level, right associativity).
Notation "c ;;; k" := (bind c (fun _ => k))
  (at level 61, right associativity).

(** ** The socket *)

(** What the program can observe of a connected TCP socket on its sending
    side.  [sock_fail] is the environment's choice that a write raises
    [OSError]; [sock_calls] lists the argument of every [sendall] call and
    [sock_wire] the bytes that went out. *)
Record Socket : Type := mkSocket {
  sock_fail : bool;
  sock_calls : list bytes;
  sock_wire : bytes
}.

Definition sendall (data : bytes) : M Socket unit :=
  fun sock =>
    let sock' := mkSocket (sock_fail sock) (sock_calls sock ++ [data])
                          (sock_wire sock) in
    if sock_fail sock then (Raise OSError, sock')
    else (Ok tt, mkSocket (sock_fail sock) (sock_calls sock ++ [data])
                          (sock_wire sock ++ data)).

(** ** Qt signals *)

Inductive Signal : Type :=
| connection_success
| connection_error (msg : str)
| server_message (msg : str)
| text_recognized (text : str)
| error_occurred (msg : str).

Section Workers.

(** [str(e)] for an exception object, as interpolated by [f"...{e}"]; the
    texts come from the Python runtime and the speech library. *)
Variable str_of_exn : exn -> str.

(** ** [ServerConnectionThread] *)

(** [self.uart_settings] is a reference to the one settings object that the
    window owns; the methods below receive its current value. *)
Record ServerConnectionThread : Type := mkServer {
  host : str;
  port : N;
  socket : option Socket;
  connected : bool;
  emitted : list Signal
}.

Definition emit (sg : Signal) : M ServerConnectionThread unit :=
  modify (fun self =>
    mkServer (host self) (port self) (socket self) (connected self)
             (emitted self ++ [sg])).

Definition set_socket (o : option Socket) (self : ServerConnectionThread)
  : ServerConnectionThread :=
  mkServer (host self) (port self) o (connected self) (emitted self).

Definition set_connected (c : bool) (self : ServerConnectionThread)
  : ServerConnectionThread :=
  mkServer (host self) (port self) (socket self) c (emitted self).

(** [self.socket.sendall(data)] *)
Definition socket_sendall (data : bytes) : M ServerConnectionThread unit :=
  fun self =>
    match socket self with
    | None => (Raise AttributeError, self)
    | Some sock =>
        let (r, sock') := sendall data sock in
        (r, set_socket (Some sock') self)
    end.

Definition send_message (uart : UARTFormatSettings) (m : message)
  : M ServerConnectionThread bool :=
  self <- get ;;
  if connected self && is_some (socket self) then
    try_except
      (uart_formatted <- lift (format_message uart m) ;;
       socket_sendall uart_formatted ;;;
       ret true)
      any_exception
      (fun e =>
         emit (connection_error
                 (lit "Failed to send message: " ++ str_of_exn e)) ;;;
         ret false)
  else ret false.

(** [disconnect]: the flag is cleared and the socket closed; writes to a
    closed socket raise. *)
Definition disconnect (self : ServerConnectionThread)
  : ServerConnectionThread :=
  let self := set_connected false self in
  match socket self with
  | Some sock =>
      set_socket (Some (mkSocket true (sock_calls sock) (sock_wire sock)))
                 self
  | None => self
  end.

(** What one [self.socket.recv(1024)] call does: it returns a chunk (empty
    when the peer has closed) or raises. *)
Inductive recv_outcome : Type :=
| Recv (data : bytes)
| RecvRaises (e : exn).

Definition socket_recv (o : recv_outcome) : M ServerConnectionThread bytes :=
  match o with
  | Recv data => ret data
  | RecvRaises e => lift (Raise e)
  end.

Inductive loop_ctl : Type := LoopContinue | LoopBreak.

(** The body of [while self.connected:] in [run]. *)
Definition recv_iteration (o : recv_outcome)
  : M ServerConnectionThread loop_ctl :=
  try_except
    (data <- socket_recv o ;;
     if truthy data then
       msg <- try_except (lift (utf8_decode data))
                is_UnicodeDecodeError
                (fun _ => ret (lit "Binary data: " ++ bytes_hex data)) ;;
       emit (server_message msg) ;;;
       ret LoopContinue
     else ret LoopContinue)
    any_exception
    (fun _ => ret LoopBreak).

(** What happens around the receive loop: a [recv] call completes, or the
    window thread calls [disconnect] in between. *)
Inductive loop_event : Type :=
| EvRecv (o : recv_outcome)
| EvDisconnect.

(** The receive loop over a finite script of events; when the script is
    used up the worker is left blocked in [recv]. *)
Fixpoint recv_loop (script : list loop_event)
  : M ServerConnectionThread unit :=
  fun self =>
    if connected self then
      match script with
      | [] => (Ok tt, self)
      | EvDisconnect :: rest => recv_loop rest (disconnect self)
      | EvRecv o :: rest =>
          match recv_iteration o self with
          | (Ok LoopContinue, self') => recv_loop rest self'
          | (Ok LoopBreak, self') => (Ok tt, self')
          | (Raise e, self') => (Raise e, self')
          end
      end
    else (Ok tt, self).

(** [run]: [connect_ok] is whether [socket.connect] succeeded; the one
    handler, [except socket.error], encloses the whole body. *)
Definition run (connect_ok : bool) (script : list loop_event)
  : M ServerConnectionThread unit :=
  try_except
    (modify (set_socket (Some (mkSocket false [] []))) ;;;
     (if connect_ok then ret tt else lift (Raise OSError)) ;;;
     modify (set_connected true) ;;;
     emit connection_success ;;;
     recv_loop script)
    (fun e => match e with OSError => true | _ => false end)
    (fun e =>
       modify (set_connected false) ;;;
       emit (connection_error (lit "Socket error: " ++ str_of_exn e))).

(** ** [SpeechRecognitionThread] *)

(** Calls into the microphone and the recognition service, recorded in
    the order the worker makes them. *)
Inductive action : Type :=
| OpenMicrophone
| AdjustForAmbientNoise
| Listen
| RecognizeGoogle
| CloseMicrophone
| Sleep.

(** [socket_conn] is the server worker's socket object. *)
Record SpeechRecognitionThread : Type := mkSpeech {
  socket_conn : Socket;
  running : bool;
  paused : bool;
  sp_emitted : list Signal;
  sp_trace : list action
}.

Definition act (a : action) : M SpeechRecognitionThread unit :=
  modify (fun self =>
    mkSpeech (socket_conn self) (running self) (paused self)
             (sp_emitted self) (sp_trace self ++ [a])).

Definition sp_emit (sg : Signal) : M SpeechRecognitionThread unit :=
  modify (fun self =>
    mkSpeech (socket_conn self) (running self) (paused self)
             (sp_emitted self ++ [sg]) (sp_trace self)).

(** [self.socket_conn.sendall(data)] *)
Definition conn_sendall (data : bytes) : M SpeechRecognitionThread unit :=
  fun self =>
    let (r, sock') := sendall data (socket_conn self) in
    (r, mkSpeech sock' (running self) (paused self) (sp_emitted self)
                 (sp_trace self)).

Definition pause (self : SpeechRecognitionThread) : SpeechRecognitionThread :=
  mkSpeech (socket_conn self) (running self) true (sp_emitted self)
           (sp_trace self).

Definition resume (self : SpeechRecognitionThread) : SpeechRecognitionThread :=
  mkSpeech (socket_conn self) (running self) false (sp_emitted self)
           (sp_trace self).

Definition stop (self : SpeechRecognitionThread) : SpeechRecognitionThread :=
  mkSpeech (socket_conn self) false (paused self) (sp_emitted self)
           (sp_trace self).

(** What the outside world answers during one recognition attempt: opening
    the microphone, the noise calibration, [listen] and [recognize_google]
    each return or raise. *)
Record SpeechEnv : Type := mkEnv {
  env_open : result unit;
  env_adjust : result unit;
  env_listen : result unit;
  env_recognize : result str
}.

(** [with sr.Microphone() as source: body]; the device is released on the
    way out, whether or not the body raised. *)
Definition with_microphone {A} (enter : result unit)
    (body : M SpeechRecognitionThread A) : M SpeechRecognitionThread A :=
  act OpenMicrophone ;;;
  lift enter ;;;
  (fun self =>
     let (r, self') := body self in
     (r, snd (act CloseMicrophone self'))).

(** The body of [while self.running:] in [run]. *)
Definition speech_iteration (uart : UARTFormatSettings) (env : SpeechEnv)
  : M SpeechRecognitionThread unit :=
  self <- get ;;
  (if negb (paused self) then
     try_except
       (with_microphone (env_open env)
          (act AdjustForAmbientNoise ;;;
           lift (env_adjust env) ;;;
           try_except
             (act Listen ;;;
              lift (env_listen env) ;;;
              try_except
                (act RecognizeGoogle ;;;
                 text <- lift (env_recognize env) ;;
                 sp_emit (text_recognized text) ;;;
                 uart_formatted <- lift (format_message uart (MStr text)) ;;
                 conn_sendall uart_formatted)
                (fun e => match e with
                          | UnknownValueError | RequestError => true
                          | _ => false
                          end)
                (fun e => match e with
                          | UnknownValueError => ret tt
                          | _ =>
                              sp_emit (error_occurred
                                (lit "Google Speech Recognition service error: "
                                 ++ str_of_exn e))
                          end))
             (fun e => match e with WaitTimeoutError => true | _ => false end)
             (fun _ => ret tt)))
       any_exception
       (fun e =>
          sp_emit (error_occurred
                     (lit "Error in speech recognition: " ++ str_of_exn e)))
   else ret tt) ;;;
  act Sleep.

(** What happens to the worker: its loop comes round once more, or the
    window thread calls one of [pause], [resume], [stop]. *)
Inductive speech_event : Type :=
| SpIterate (env : SpeechEnv)
| SpPause
| SpResume
| SpStop.

(** [run] over a finite script: the loop body is entered only while
    [self.running] holds, and the loop is over once it does not. *)
Fixpoint speech_run (uart : UARTFormatSettings) (script : list speech_event)
  : M SpeechRecognitionThread unit :=
  match script with
  | [] => ret tt
  | SpIterate env :: rest =>
      self <- get ;;
      if running self then
        speech_iteration uart env ;;; speech_run uart rest
      else ret tt
  | SpPause :: rest => modify pause ;;; speech_run uart rest
  | SpResume :: rest => modify resume ;;; speech_run uart rest
  | SpStop :: rest => modify stop ;;; speech_run uart rest
  end.

(** ** [SpeechRecognitionGUI]: the manual send slots *)

Record GUI : Type := mkGUI {
  uart_settings : UARTFormatSettings;
  server_thread : option ServerConnectionThread;
  text_input : str;
  log_text : list str;
  show_hex_checkbox : bool
}.

Definition set_server_thread (o : option ServerConnectionThread) (g : GUI)
  : GUI :=
  mkGUI (uart_settings g) o (text_input g) (log_text g) (show_hex_checkbox g).

Definition set_text_input (t : str) (g : GUI) : GUI :=
  mkGUI (uart_settings g) (server_thread g) t (log_text g)
        (show_hex_checkbox g).

Definition append_log (lines : list str) (g : GUI) : GUI :=
  mkGUI (uart_settings g) (server_thread g) (text_input g)
        (log_text g ++ lines) (show_hex_checkbox g).

(** [log]: one more line in the activity log. *)
Definition log (msg : str) : M GUI unit := modify (append_log [msg]).

(** [not self.server_thread or not self.server_thread.connected] *)
Definition not_connected (g : GUI) : bool :=
  match server_thread g with
  | None => true
  | Some th => negb (connected th)
  end.

(** [connection_error] is connected to [log], and a signal emitted from the
    window's own thread runs its slot at once; the other signals have slots
    of their own, and [send_message] emits none of them. *)
Fixpoint error_lines (sgs : list Signal) : list str :=
  match sgs with
  | [] => []
  | connection_error msg :: r => msg :: error_lines r
  | _ :: r => error_lines r
  end.

(** [self.server_thread.send_message(text)] *)
Definition call_send_message (text : str) : M GUI bool :=
  fun g =>
    match server_thread g with
    | None => (Raise AttributeError, g)
    | Some th =>
        let (r, th') := send_message (uart_settings g) (MStr text) th in
        let fresh := skipn (List.length (emitted th)) (emitted th') in
        (r, append_log (error_lines fresh) (set_server_thread (Some th') g))
    end.

(** [self.server_thread.socket.sendall(data)] *)
Definition server_socket_sendall (data : bytes) : M GUI unit :=
  fun g =>
    match server_thread g with
    | None => (Raise AttributeError, g)
    | Some th =>
        let (r, th') := socket_sendall data th in
        (r, set_server_thread (Some th') g)
    end.

Definition send_text : M GUI unit :=
  g <- get ;;
  if not_connected g then log (lit "Not connected to server")
  else
    let text := strip (text_input g) in
    if truthy text then
      success <- call_send_message text ;;
      if success then
        formatted_text <- lift (format_message (uart_settings g) (MStr text)) ;;
        (if show_hex_checkbox g then
           log (lit "Sent: " ++ text ++ lit " [Hex: "
                ++ hex_repr formatted_text ++ lit "]")
         else log (lit "Sent: " ++ text)) ;;;
        modify (set_text_input [])
      else log (lit "Failed to send message")
    else ret tt.

(** The line logged when [bytes.fromhex] raises. *)
Definition invalid_hex_line : str :=
  lit "Invalid hex format. Use format like 'AB CD EF' or 'ABCDEF'".

Definition send_hex : M GUI unit :=
  g <- get ;;
  if not_connected g then log (lit "Not connected to server")
  else
    let hex_text := strip (text_input g) in
    if truthy hex_text then
      try_except
        (let hex_text := remove_spaces hex_text in
         byte_data <- lift (bytes_fromhex hex_text) ;;
         server_socket_sendall byte_data ;;;
         log (lit "Sent hex: " ++ hex_repr byte_data) ;;;
         modify (set_text_input []))
        is_ValueError
        (fun _ => log invalid_hex_line)
    else ret tt.

End Workers.

(** An invalid input to the hex-send slot in the words of the
    specification: of odd length once the spaces are removed, or with some
    character left that is not a hex digit. *)
Definition spec_invalid_hex (s : str) : bool :=
  Nat.odd (List.length (remove_spaces s))
  || existsb (fun c => negb (is_hexdigit c)) (remove_spaces s).

(** Unfolds one pass of the speech worker down to its primitive steps. *)
Ltac run_speech :=
  unfold speech_iteration, with_microphone, try_except, bind, get, lift, ret,
    act, sp_emit, conn_sendall, sendall, modify, any_exception;
  cbn [paused running socket_conn sp_emitted sp_trace negb fst snd].

(** Settles comparisons of numbers that [lia] can decide. *)
Ltac decide_cmp :=
  repeat match goal with
    | |- context [?a <? ?b] =>
        first [ replace (a <? b) with true by (symmetry; apply N.ltb_lt; lia)
              | replace (a <? b) with false by (symmetry; apply N.ltb_ge; lia) ]
    | |- context [?a <=? ?b] =>
        first [ replace (a <=? b) with true by (symmetry; apply N.leb_le; lia)
              | replace (a <=? b) with false by (symmetry; apply N.leb_gt; lia) ]
    | |- context [?a =? ?b] =>
        first [ replace (a =? b) with true by (symmetry; apply N.eqb_eq; lia)
              | replace (a =? b) with false by (symmetry; apply N.eqb_neq; lia) ]
    end.

(** ** Further parts of the program *)

(** The suffix that [format_message] appends to a [str]. *)
Definition terminator (self : UARTFormatSettings) : str :=
  if add_cr self && add_lf self then [CR; LF]
  else if add_cr self then [CR]
  else if add_lf self then [LF]
  else [].

(** The text that the receive loop emits for a chunk. *)
Definition chunk_text (data : bytes) : str :=
  match utf8_decode data with
  | Ok text => text
  | Raise _ => lit "Binary data: " ++ bytes_hex data
  end.

(** The signals that a run of chunks gives rise to; [recv] returning an
    empty chunk emits nothing. *)
Definition chunk_messages (chunks : list bytes) : list Signal :=
  map (fun data => server_message (chunk_text data)) (filter truthy chunks).

Definition add_emitted (sgs : list Signal) (self : ServerConnectionThread)
  : ServerConnectionThread :=
  mkServer (host self) (port self) (socket self) (connected self)
           (emitted self ++ sgs).

(** ** The log slots of the window *)

(** [str(n)] for a Python [int]. *)
Definition str_of_Z (z : Z) : str :=
  lit (DecimalString.NilZero.string_of_int (Z.to_int z)).

(** [f'{n:02x}']: lower-case hexadecimal, at least two digits. *)
Definition format_02x (n : N) : str :=
  let digits := lit (HexadecimalString.NilZero.string_of_uint
                       (N.to_hex_uint n)) in
  if (List.length digits <? 2)%nat then 48 :: digits else digits.

(** [' '.join(parts)] *)
Fixpoint join_space (parts : list str) : str :=
  match parts with
  | [] => []
  | [p] => p
  | p :: r => p ++ SPACE :: join_space r
  end.

(** [on_server_message]: the hex shown is that of the characters,
    [ord(c)], one group per character. *)
Definition on_server_message (message : str) : M GUI unit :=
  g <- get ;;
  if show_hex_checkbox g then
    log (lit "Server: " ++ message ++ lit " [Hex: "
         ++ join_space (map format_02x message) ++ lit "]")
  else log (lit "Server: " ++ message).

(** [on_speech_recognized]; [format_message] always returns [bytes], so
    the [isinstance] test holds whenever it is reached. *)
Definition on_speech_recognized (text : str) : M GUI unit :=
  g <- get ;;
  if show_hex_checkbox g then
    formatted_text <- lift (format_message (uart_settings g) (MStr text)) ;;
    log (lit "You said: " ++ text ++ lit " [Hex: "
         ++ hex_repr formatted_text ++ lit "]")
  else log (lit "You said: " ++ text).

(** ** The window and its buttons *)

(** What the window reads and writes of its speech worker: the two flags.
    The worker's socket is the connection worker's socket object, which
    stays where it is, in [server_thread]. *)
Record SpeechHandle : Type := mkHandle {
  sh_running : bool;
  sh_paused : bool
}.

(** Which buttons are enabled. *)
Record Buttons : Type := mkButtons {
  connect_button : bool;
  disconnect_button : bool;
  start_button : bool;
  stop_button : bool;
  pause_button : bool;
  resume_button : bool;
  send_button : bool;
  send_hex_button : bool
}.

(** The window: the part modelled above, the address last connected to,
    the speech worker, the buttons, the sensitivity slider with its label,
    and the threshold last written to the recognizer. *)
Record Window : Type := mkWindow {
  gui : GUI;
  w_host : str;
  w_port : Z;
  speech_thread : option SpeechHandle;
  buttons : Buttons;
  threshold_slider : N;
  threshold_value : str;
  r_energy_threshold : N
}.

Definition set_gui (g : GUI) (w : Window) : Window :=
  mkWindow g (w_host w) (w_port w) (speech_thread w) (buttons w)
           (threshold_slider w) (threshold_value w) (r_energy_threshold w).

Definition set_speech_thread (o : option SpeechHandle) (w : Window) : Window :=
  mkWindow (gui w) (w_host w) (w_port w) o (buttons w)
           (threshold_slider w) (threshold_value w) (r_energy_threshold w).

Definition set_buttons (b : Buttons) (w : Window) : Window :=
  mkWindow (gui w) (w_host w) (w_port w) (speech_thread w) b
           (threshold_slider w) (threshold_value w) (r_energy_threshold w).

(** [self.log(msg)] *)
Definition wlog (msg : str) (w : Window) : Window :=
  set_gui (append_log [msg] (gui w)) w.

(** The window as [__init__] leaves it; [mic_line] is the one line that
    [populate_microphones] logs. *)
Definition initial_window (mic_line : str) : Window :=
  mkWindow
    (mkGUI default_settings None []
       [lit "UART Speech Recognition GUI started. Please connect to server.";
        mic_line]
       false)
    (lit "192.168.1.1") 288%Z None
    (mkButtons true false false false false false false false)
    300 (lit "300") 300.

(** [self.speech_thread and self.speech_thread.isRunning()]; the worker's
    thread runs from its creation until [stop] has returned. *)
Definition is_running (w : Window) : bool :=
  match speech_thread w with
  | Some h => sh_running h
  | None => false
  end.

Definition on_connection_success (w : Window) : Window :=
  let w := wlog (lit "Connected to " ++ w_host w ++ lit ":"
                 ++ str_of_Z (w_port w)) w in
  let b := buttons w in
  set_buttons
    (mkButtons false true true (stop_button b) (pause_button b)
               (resume_button b) true true) w.

Definition stop_speech_recognition (w : Window) : Window :=
  let w := if is_running w then set_speech_thread None w else w in
  let b := buttons w in
  let w := set_buttons
             (mkButtons (connect_button b) (disconnect_button b) true false
                        false false (send_button b) (send_hex_button b)) w in
  wlog (lit "Speech recognition stopped") w.

Definition start_speech_recognition (w : Window) : Window :=
  if not_connected (gui w) then wlog (lit "Not connected to server") w
  else
    let w := mkWindow (gui w) (w_host w) (w_port w)
                      (Some (mkHandle true false)) (buttons w)
                      (threshold_slider w) (threshold_value w)
                      (threshold_slider w) in
    let b := buttons w in
    let w := set_buttons
               (mkButtons (connect_button b) (disconnect_button b) false true
                          true false (send_button b) (send_hex_button b)) w in
    wlog (lit "Speech recognition started") w.

Definition pause_speech_recognition (w : Window) : Window :=
  match speech_thread w with
  | Some h =>
      if sh_running h then
        let w := set_speech_thread (Some (mkHandle (sh_running h) true)) w in
        let b := buttons w in
        let w := set_buttons
                   (mkButtons (connect_button b) (disconnect_button b)
                              (start_button b) (stop_button b) false true
                              (send_button b) (send_hex_button b)) w in
        wlog (lit "Speech recognition paused") w
      else w
  | None => w
  end.

Definition resume_speech_recognition (w : Window) : Window :=
  match speech_thread w with
  | Some h =>
      if sh_running h then
        let w := set_speech_thread (Some (mkHandle (sh_running h) false)) w in
        let b := buttons w in
        let w := set_buttons
                   (mkButtons (connect_button b) (disconnect_button b)
                              (start_button b) (stop_button b) true false
                              (send_button b) (send_hex_button b)) w in
        wlog (lit "Speech recognition resumed") w
      else w
  | None => w
  end.

Definition disconnect_from_server (w : Window) : Window :=
  let w := if is_running w then stop_speech_recognition w else w in
  let w := match server_thread (gui w) with
           | Some _ => set_gui (set_server_thread None (gui w)) w
           | None => w
           end in
  let b := buttons w in
  let w := set_buttons
             (mkButtons true false false (stop_button b) (pause_button b)
                        (resume_button b) false false) w in
  wlog (lit "Disconnected from server") w.

(** [str(n)] for a Python [int] that is not negative. *)
Definition str_of_N (n : N) : str :=
  lit (DecimalString.NilZero.string_of_uint (N.to_uint n)).

(** [update_threshold(value)], called when the slider has moved to
    [value]; the worker, when there is one, shares the recognizer. *)
Definition update_threshold (value : N) (w : Window) : Window :=
  mkWindow (gui w) (w_host w) (w_port w) (speech_thread w) (buttons w)
           value (str_of_N value) value.

(** The slots of the window that the buttons, the slider and the
    connection worker's success signal set off. *)
Inductive slot : Type :=
| SlotConnectionSuccess
| SlotDisconnect
| SlotStart
| SlotStop
| SlotPause
| SlotResume
| SlotThreshold (value : N).

Definition run_slot (s : slot) (w : Window) : Window :=
  match s with
  | SlotConnectionSuccess => on_connection_success w
  | SlotDisconnect => disconnect_from_server w
  | SlotStart => start_speech_recognition w
  | SlotStop => stop_speech_recognition w
  | SlotPause => pause_speech_recognition w
  | SlotResume => resume_speech_recognition w
  | SlotThreshold value => update_threshold value w
  end.

Definition run_slots (slots : list slot) (w : Window) : Window :=
  fold_left (fun w s => run_slot s w) slots w.

(** What the buttons, the worker's flags and the sensitivity label agree
    on. *)
Definition window_inv (w : Window) : Prop :=
  let b := buttons w in
  connect_button b = negb (disconnect_button b)
  /\ send_button b = disconnect_button b
  /\ send_hex_button b = disconnect_button b
  /\ match speech_thread w with
     | Some h =>
         sh_running h = true /\ stop_button b = true
         /\ pause_button b = negb (sh_paused h)
         /\ resume_button b = sh_paused h
     | None =>
         stop_button b = false /\ pause_button b = false
         /\ resume_button b = false
     end
  /\ threshold_value w = str_of_N (threshold_slider w).

(** * Properties *)

(** ** The formatter *)

Lemma rbind_Ok {A} (r : result A) : rbind r (fun a => Ok a) = r.
Proof. destruct r; reflexivity. Qed.

Lemma utf8_encode_app (s t : str) :
  utf8_encode (s ++ t) =
  let? a := utf8_encode s in let? b := utf8_encode t in Ok (a ++ b).
Proof.
  induction s as [|c s IH]; simpl.
  - symmetry; apply rbind_Ok.
  - destruct (utf8_encode_cp c) as [bc|e]; simpl; [|reflexivity].
    rewrite IH.
    destruct (utf8_encode s) as [bs|e]; simpl; [|reflexivity].
    destruct (utf8_encode t) as [bt|e]; simpl; [|reflexivity].
    now rewrite app_assoc.
Qed.

Lemma fromhex_hex2 (b : byte) (s : str) :
  bytes_fromhex (hex2 b ++ s) = let? tl := bytes_fromhex s in Ok (b :: tl).
Proof. destruct b; reflexivity. Qed.

(** Decoding the hex string of a byte sequence gives the sequence back. *)
Lemma fromhex_hex (b : bytes) : bytes_fromhex (bytes_hex b) = Ok b.
Proof.
  induction b as [|x b IH]; [reflexivity|].
  change (bytes_hex (x :: b)) with (hex2 x ++ bytes_hex b).
  now rewrite fromhex_hex2, IH.
Qed.

(** On a [str] argument the formatter is the encoder applied to the text
    with its terminator; the hex branch changes nothing. *)
Lemma format_message_str (self : UARTFormatSettings) (s : str) :
  format_message self (MStr s) =
  utf8_encode
    (s ++ (if add_cr self && add_lf self then [CR; LF]
           else if add_cr self then [CR]
           else if add_lf self then [LF] else [])).
Proof.
  unfold format_message.
  destruct (add_cr self), (add_lf self); simpl;
    rewrite ?app_nil_r;
    match goal with
    | |- context [utf8_encode ?t] => destruct (utf8_encode t) as [b|e]
    end; simpl; try reflexivity;
    destruct (hex_output self); auto using fromhex_hex.
Qed.

Lemma utf8_encode_scalar (s : str) :
  forallb is_scalar s = true -> exists b, utf8_encode s = Ok b.
Proof.
  induction s as [|c s IH]; simpl; intros H.
  - now exists [].
  - apply andb_true_iff in H as [Hc Hs].
    destruct (IH Hs) as [bs Hbs]. rewrite Hbs.
    unfold utf8_encode_cp.
    unfold is_scalar in Hc. apply andb_true_iff in Hc as [Hn Hle].
    apply negb_true_iff in Hn. rewrite Hn, Hle.
    repeat match goal with
           | |- context [if ?c then _ else _] => destruct c
           end; simpl; eauto.
Qed.

(** C1: for each of the four terminator policies, [format_message] on a
    string is the UTF-8 encoding of the string followed by exactly that
    terminator: CR LF when both flags are set, CR when only [add_cr], LF
    when only [add_lf], nothing when neither.  The result is the encoding
    of the extended text, and equally the encoding of the input followed by
    the terminator's bytes. *)
Theorem format_message_appends_terminator
    (self : UARTFormatSettings) (s : str) :
  let term : str * bytes :=
    match add_cr self, add_lf self with
    | true, true => ([CR; LF], [x0d; x0a])
    | true, false => ([CR], [x0d])
    | false, true => ([LF], [x0a])
    | false, false => ([], [])
    end in
  format_message self (MStr s) = utf8_encode (s ++ fst term)
  /\ format_message self (MStr s)
     = rmap (fun b => b ++ snd term) (utf8_encode s).
Proof.
  rewrite format_message_str.
  destruct (add_cr self), (add_lf self); simpl; split; try reflexivity;
    rewrite utf8_encode_app; unfold rmap;
    destruct (utf8_encode s); reflexivity.
Qed.

(** C2: the hex pass-through is a round trip that changes nothing:
    [bytes.fromhex(b.hex())] is [b] for every byte sequence [b], and so
    [format_message] gives the same result for a string with [hex_output]
    set as with it cleared, the other six fields being equal. *)
Theorem hex_passthrough_is_noop :
  (forall b : bytes, bytes_fromhex (bytes_hex b) = Ok b)
  /\ (forall db p sb br cr lf (s : str),
        format_message (mkUART db p sb br cr lf true) (MStr s)
        = format_message (mkUART db p sb br cr lf false) (MStr s)).
Proof.
  split; [exact fromhex_hex|].
  intros. now rewrite !format_message_str.
Qed.

(** C3: two configurations that agree on [add_cr], [add_lf] and
    [hex_output] format every message alike, whatever their parity, stop
    bits, baud rate and data bits. *)
Theorem format_message_ignores_line_parameters
    (c1 c2 : UARTFormatSettings) (m : message)
    (Hcr : add_cr c1 = add_cr c2)
    (Hlf : add_lf c1 = add_lf c2)
    (Hhex : hex_output c1 = hex_output c2) :
  format_message c1 m = format_message c2 m.
Proof.
  unfold format_message. now rewrite Hcr, Hlf, Hhex.
Qed.

Lemma format_message_ignores_line_parameters_witness :
  let c1 := mkUART 8 ParityN Stop1 9600 true true true in
  let c2 := mkUART 5 ParityO Stop1_5 115200 true true true in
  format_message c1 (MStr (lit "on")) = format_message c2 (MStr (lit "on")).
Proof.
  intros c1 c2.
  apply (format_message_ignores_line_parameters c1 c2 (MStr (lit "on")));
    reflexivity.
Defined.

(** C8, as the code has it: on every string free of surrogate code points
    [format_message] returns a byte sequence, under every configuration;
    the bytes are the encoding of the terminated text, and the hex
    re-encode of them succeeds and gives them back. *)
Theorem format_message_total_on_scalar_strings
    (self : UARTFormatSettings) (s : str)
    (Hs : forallb is_scalar s = true) :
  exists b : bytes,
    format_message self (MStr s) = Ok b
    /\ bytes_fromhex (bytes_hex b) = Ok b.
Proof.
  rewrite format_message_str.
  match goal with
  | |- context [utf8_encode ?t] =>
      destruct (utf8_encode_scalar t) as [b Hb]
  end.
  - rewrite forallb_app, Hs.
    destruct (add_cr self), (add_lf self); reflexivity.
  - exists b. split; [exact Hb | apply fromhex_hex].
Qed.

Lemma format_message_total_on_scalar_strings_witness :
  exists b : bytes,
    format_message default_settings (MStr (lit "go")) = Ok b
    /\ bytes_fromhex (bytes_hex b) = Ok b.
Proof.
  apply (format_message_total_on_scalar_strings default_settings (lit "go")).
  reflexivity.
Defined.

(** C8 fails as stated: on a string that holds a lone surrogate
    [str.encode] raises, and so does [format_message]. *)
Lemma format_message_raises_on_surrogate :
  format_message default_settings (MStr [0xD800]) = Raise UnicodeEncodeError
  /\ ~ (exists b : bytes,
          format_message default_settings (MStr [0xD800]) = Ok b).
Proof.
  split; [reflexivity|].
  intros [b Hb]. discriminate Hb.
Qed.

(** ** The two codecs agree *)

Lemma below_forallb (P : N -> bool) (k : nat) :
  forallb P (map N.of_nat (seq 0 k)) = true ->
  forall n : N, n < N.of_nat k -> P n = true.
Proof.
  intros H n Hn. rewrite forallb_forall in H. apply H.
  rewrite <- (N2Nat.id n). apply in_map, in_seq. lia.
Qed.

Lemma to_N_lead (base width : N) (k : nat) :
  forallb (fun h => (Byte.to_N (bor base h) =? base + h)
                    && (N.land (base + h) width =? h))
          (map N.of_nat (seq 0 k)) = true ->
  forall h : N, h < N.of_nat k ->
    Byte.to_N (bor base h) = base + h /\ N.land (base + h) width = h.
Proof.
  intros H h Hh. apply (below_forallb _ _ H) in Hh.
  apply andb_true_iff in Hh as [H1 H2].
  now apply N.eqb_eq in H1, H2.
Qed.

Lemma to_N_cont (l : N) :
  l < 64 -> Byte.to_N (bor 0x80 l) = 0x80 + l /\ N.land (0x80 + l) 0x3F = l.
Proof. apply (to_N_lead 0x80 0x3F 64). vm_compute. reflexivity. Qed.

Lemma to_N_ascii (c : N) : c < 128 -> Byte.to_N (byte_of_N c) = c.
Proof.
  intros Hc.
  apply N.eqb_eq.
  apply (below_forallb (fun c => Byte.to_N (byte_of_N c) =? c) 128);
    [vm_compute; reflexivity | exact Hc].
Qed.

Lemma shiftr_div (a n : N) : N.shiftr a n = a / 2 ^ n.
Proof. apply N.shiftr_div_pow2. Qed.

Lemma shiftl_mul (a n : N) : N.shiftl a n = a * 2 ^ n.
Proof. apply N.shiftl_mul_pow2. Qed.

Lemma cont_split (c shift : N) :
  exists l, l < 64 /\ l = (c / 2 ^ shift) mod 64
            /\ Byte.to_N (cont c shift) = 0x80 + l
            /\ N.land (0x80 + l) 0x3F = l.
Proof.
  exists ((c / 2 ^ shift) mod 64).
  assert (Hl : (c / 2 ^ shift) mod 64 < 64) by (apply N.mod_lt; lia).
  unfold cont. rewrite shiftr_div.
  change 0x3F with (N.ones 6). rewrite N.land_ones.
  change (2 ^ 6) with 64.
  destruct (to_N_cont _ Hl) as [H1 H2].
  change (N.ones 6) with 0x3F. auto.
Qed.

(** Decoding what the encoder wrote for one code point gives the code
    point back and goes on with the rest. *)
Lemma utf8_decode_encode_cp (c : codepoint) (bs r : bytes) :
  utf8_encode_cp c = Ok bs ->
  utf8_decode (bs ++ r) = let? s := utf8_decode r in Ok (c :: s).
Proof.
  unfold utf8_encode_cp. rewrite !shiftr_div.
  change (2 ^ 6) with 64. change (2 ^ 12) with 4096.
  change (2 ^ 18) with 262144.
  destruct (N.ltb_spec c 0x80) as [H1|H1].
  { intros [= <-]. cbn [app utf8_decode].
    rewrite (to_N_ascii c) by lia. decide_cmp. reflexivity. }
  destruct (cont_split c 0) as (l & Hl & El & Tl & Ll).
  change (2 ^ 0) with 1 in El. rewrite N.div_1_r in El.
  pose proof (N.div_mod c 64 ltac:(lia)) as Dc. rewrite <- El in Dc.
  destruct (N.ltb_spec c 0x800) as [H2|H2].
  { intros [= <-].
    set (h := c / 64) in *.
    assert (Hh : h < 32) by lia.
    destruct (to_N_lead 0xC0 0x1F 32 ltac:(vm_compute; reflexivity) h Hh)
      as [Th Lh].
    cbn [app utf8_decode]. unfold is_cont, low6. rewrite Th, Tl, Lh, Ll.
    decide_cmp. cbn [andb negb]. rewrite shiftl_mul.
    change (2 ^ 6) with 64. replace (h * 64 + l) with c by lia.
    reflexivity. }
  destruct (cont_split c 6) as (m & Hm & Em & Tm & Lm).
  change (2 ^ 6) with 64 in Em.
  pose proof (N.div_mod (c / 64) 64 ltac:(lia)) as Dm. rewrite <- Em in Dm.
  rewrite N.Div0.div_div in Dm. change (64 * 64) with 4096 in Dm.
  destruct (N.ltb_spec c 0x10000) as [H3|H3].
  { unfold is_surrogate.
    destruct (N.leb_spec 0xD800 c) as [S1|S1];
      destruct (N.leb_spec c 0xDFFF) as [S2|S2]; cbn [andb];
      try discriminate;
      intros [= <-];
      set (h := c / 4096) in *;
      assert (Hh : h < 16) by lia;
      destruct (to_N_lead 0xE0 0x0F 16 ltac:(vm_compute; reflexivity) h Hh)
        as [Th Lh];
      cbn [app utf8_decode]; unfold is_cont, low6;
      rewrite Th, Tm, Tl, Lh, Lm, Ll;
      destruct (N.eq_dec h 0), (N.eq_dec h 13); try (exfalso; lia);
      decide_cmp; cbn [andb negb]; rewrite !shiftl_mul;
      change (2 ^ 6) with 64; change (2 ^ 12) with 4096;
      replace (h * 4096 + m * 64 + l) with c by lia; reflexivity. }
  destruct (cont_split c 12) as (n & Hn & En & Tn & Ln).
  change (2 ^ 12) with 4096 in En.
  pose proof (N.div_mod (c / 4096) 64 ltac:(lia)) as Dn. rewrite <- En in Dn.
  rewrite N.Div0.div_div in Dn. change (4096 * 64) with 262144 in Dn.
  destruct (N.leb_spec c 0x10FFFF) as [H4|H4]; [|discriminate].
  intros [= <-].
  set (h := c / 262144) in *.
  assert (Hh : h < 8) by lia.
  destruct (to_N_lead 0xF0 0x07 8 ltac:(vm_compute; reflexivity) h Hh)
    as [Th Lh].
  cbn [app utf8_decode]. unfold is_cont, low6.
  rewrite Th, Tn, Tm, Tl, Lh, Ln, Lm, Ll.
  destruct (N.eq_dec h 0), (N.eq_dec h 4); try (exfalso; lia);
    decide_cmp; cbn [andb negb]; rewrite !shiftl_mul;
    change (2 ^ 6) with 64; change (2 ^ 12) with 4096;
    change (2 ^ 18) with 262144;
    replace (h * 262144 + n * 4096 + m * 64 + l) with c by lia; reflexivity.
Qed.

(** [s.encode('utf-8').decode('utf-8')] is [s] whenever the encoding
    exists. *)
Lemma utf8_decode_encode (s : str) (b : bytes) :
  utf8_encode s = Ok b -> utf8_decode b = Ok s.
Proof.
  revert b. induction s as [|c s IH]; intros b.
  - now intros [= <-].
  - cbn [utf8_encode].
    destruct (utf8_encode_cp c) as [bc|e] eqn:Hc; [|discriminate].
    destruct (utf8_encode s) as [bs|e]; [|discriminate].
    intros [= <-]. rewrite (utf8_decode_encode_cp c bc bs Hc).
    now rewrite (IH bs eq_refl).
Qed.

(** ** The connection worker *)

(** The decoder has one way to fail. *)
Lemma utf8_decode_raises_aux (n : nat) :
  forall (b : bytes) (e : exn),
    (List.length b <= n)%nat ->
    utf8_decode b = Raise e -> e = UnicodeDecodeError.
Proof.
  induction n as [|n IH]; intros b e Hlen H.
  - destruct b; [discriminate H | simpl in Hlen; lia].
  - destruct b as [|b0 r]; [discriminate H|].
    simpl in Hlen.
    assert (Hsub : forall r', (List.length r' <= List.length r)%nat ->
                     forall s0 : codepoint,
                     (let? s := utf8_decode r' in Ok (s0 :: s)) = Raise e ->
                     e = UnicodeDecodeError).
    { intros r' Hr' s0 H'. apply (IH r'); [lia|].
      destruct (utf8_decode r'); [discriminate H' | exact H']. }
    cbn [utf8_decode] in H.
    repeat match type of H with
           | (if ?c then _ else _) = _ => destruct c
           | match ?l with [] => _ | _ :: _ => _ end = _ => destruct l
           | Raise _ = Raise _ => injection H as <-; reflexivity
           end;
      try (eapply Hsub; [|exact H]; simpl; lia).
Qed.

Lemma utf8_decode_raises (b : bytes) (e : exn) :
  utf8_decode b = Raise e -> e = UnicodeDecodeError.
Proof. apply (utf8_decode_raises_aux (List.length b)); lia. Qed.

(** One pass through the receive loop never lets an exception out. *)
Lemma recv_iteration_returns (o : recv_outcome) (self : ServerConnectionThread) :
  exists (c : loop_ctl) (self' : ServerConnectionThread),
    recv_iteration o self = (Ok c, self').
Proof.
  unfold recv_iteration, try_except at 1.
  match goal with
  | |- context [match ?body self with _ => _ end] =>
      destruct (body self) as [[c|e] self']
  end; unfold any_exception, ret; eauto.
Qed.

Lemma recv_loop_returns (script : list loop_event) :
  forall self : ServerConnectionThread,
    exists self', recv_loop script self = (Ok tt, self').
Proof.
  induction script as [|ev rest IH]; intros self; simpl.
  - destruct (connected self); eauto.
  - destruct (connected self); [|eauto].
    destruct ev as [o|]; [|apply IH].
    destruct (recv_iteration_returns o self) as (c & self' & ->).
    destruct c; [apply IH | eauto].
Qed.

(** C6: a non-empty chunk returned by [recv] is emitted as exactly one
    [server_message]: its UTF-8 decoding when the bytes decode, and
    otherwise the text "Binary data: " followed by the hex string of the
    bytes; the loop goes on after it.  A chunk that is the UTF-8 encoding
    of a text does decode, to that text.  The receive loop as a whole
    returns without raising, whatever the socket delivers. *)
Theorem recv_chunk_is_emitted (data : bytes) (self : ServerConnectionThread)
    (Hdata : data <> []) :
  recv_iteration (Recv data) self =
    (Ok LoopContinue,
     mkServer (host self) (port self) (socket self) (connected self)
       (emitted self
        ++ [server_message
              match utf8_decode data with
              | Ok text => text
              | Raise _ => lit "Binary data: " ++ bytes_hex data
              end]))
  /\ (forall text : str,
        utf8_encode text = Ok data -> utf8_decode data = Ok text)
  /\ (forall script : list loop_event,
        exists self', recv_loop (EvRecv (Recv data) :: script) self
                      = (Ok tt, self')).
Proof.
  split; [|split; [intros text; apply utf8_decode_encode
                  |intros; apply recv_loop_returns]].
  destruct data as [|b0 r]; [contradiction|].
  unfold recv_iteration, try_except, bind, socket_recv, ret, lift.
  cbn [truthy].
  destruct (utf8_decode (b0 :: r)) as [text|e] eqn:Hdec.
  - reflexivity.
  - rewrite (utf8_decode_raises _ _ Hdec). reflexivity.
Qed.

Lemma recv_chunk_is_emitted_witness :
  let self := mkServer (lit "192.168.1.1") 288 (Some (mkSocket false [] []))
                       true [connection_success] in
  recv_iteration (Recv [xff; x41]) self =
    (Ok LoopContinue,
     mkServer (lit "192.168.1.1") 288 (Some (mkSocket false [] [])) true
       [connection_success; server_message (lit "Binary data: ff41")]).
Proof.
  intros self.
  exact (proj1 (recv_chunk_is_emitted [xff; x41] self
                  ltac:(discriminate))).
Defined.

(** C7: [send_message] always returns a boolean.  With the connection not
    open ([connected] false or no socket) it returns [False] and touches
    nothing: no write is attempted and no signal emitted.  With the
    connection open it formats the message and makes one [sendall] call
    with the formatted bytes: when the write succeeds the bytes are on the
    wire and the result is [True]; when it raises, the error goes out as a
    [connection_error] signal, nothing is put on the wire or tried again,
    and the result is [False]; a message that cannot be formatted is
    reported the same way, with no write attempted. *)
Theorem send_message_outcomes (str_of_exn : exn -> str)
    (uart : UARTFormatSettings) (m : message)
    (self : ServerConnectionThread) :
  (exists (r : bool) (self' : ServerConnectionThread),
     send_message str_of_exn uart m self = (Ok r, self'))
  /\ (connected self = false \/ socket self = None ->
      send_message str_of_exn uart m self = (Ok false, self))
  /\ (forall (sock : Socket) (e : exn),
        connected self = true -> socket self = Some sock ->
        format_message uart m = Raise e ->
        send_message str_of_exn uart m self =
          (Ok false,
           mkServer (host self) (port self) (Some sock) true
             (emitted self
              ++ [connection_error
                    (lit "Failed to send message: " ++ str_of_exn e)])))
  /\ (forall (sock : Socket) (b : bytes),
        connected self = true -> socket self = Some sock ->
        format_message uart m = Ok b ->
        send_message str_of_exn uart m self =
          if sock_fail sock then
            (Ok false,
             mkServer (host self) (port self)
               (Some (mkSocket true (sock_calls sock ++ [b]) (sock_wire sock)))
               true
               (emitted self
                ++ [connection_error
                      (lit "Failed to send message: " ++ str_of_exn OSError)]))
          else
            (Ok true,
             mkServer (host self) (port self)
               (Some (mkSocket false (sock_calls sock ++ [b])
                               (sock_wire sock ++ b)))
               true (emitted self))).
Proof.
  unfold send_message, bind, get.
  destruct self as [h p [sock|] [|] em]; cbn [connected socket andb is_some].
  - unfold try_except, bind, lift, ret, socket_sendall, sendall, emit, modify,
      any_exception.
    cbn [socket host port connected emitted set_socket].
    repeat split.
    + destruct (format_message uart m) as [b|e]; [|eauto].
      destruct (sock_fail sock); eauto.
    + intros [H|H]; discriminate H.
    + intros sock' e _ [= <-] ->. reflexivity.
    + intros sock' b _ [= <-] ->.
      destruct (sock_fail sock) eqn:Hf; cbn; rewrite ?Hf; reflexivity.
  - repeat split; unfold ret; eauto; intros ? ? H; discriminate H.
  - repeat split; unfold ret; eauto; intros ? ? _ H; discriminate H.
  - repeat split; unfold ret; eauto; intros ? ? H; discriminate H.
Qed.

Lemma send_message_outcomes_witness :
  let str_of_exn := fun _ : exn => lit "[Errno 32] Broken pipe" in
  let closed := mkServer (lit "h") 288 None false [] in
  let up f := mkServer (lit "h") 288 (Some (mkSocket f [] [])) true [] in
  send_message str_of_exn default_settings (MStr (lit "go")) closed
    = (Ok false, closed)
  /\ send_message str_of_exn default_settings (MStr (lit "go")) (up false)
     = (Ok true,
        mkServer (lit "h") 288
          (Some (mkSocket false [[x67; x6f; x0a]] [x67; x6f; x0a])) true [])
  /\ send_message str_of_exn default_settings (MStr (lit "go")) (up true)
     = (Ok false,
        mkServer (lit "h") 288
          (Some (mkSocket true [[x67; x6f; x0a]] [])) true
          [connection_error
             (lit "Failed to send message: [Errno 32] Broken pipe")]).
Proof.
  intros str_of_exn closed up.
  split; [|split].
  - apply (proj1 (proj2 (send_message_outcomes str_of_exn default_settings
                           (MStr (lit "go")) closed))).
    left; reflexivity.
  - exact (proj2 (proj2 (proj2 (send_message_outcomes str_of_exn
                                  default_settings (MStr (lit "go"))
                                  (up false))))
             (mkSocket false [] []) [x67; x6f; x0a]
             eq_refl eq_refl eq_refl).
  - exact (proj2 (proj2 (proj2 (send_message_outcomes str_of_exn
                                  default_settings (MStr (lit "go"))
                                  (up true))))
             (mkSocket true [] []) [x67; x6f; x0a]
             eq_refl eq_refl eq_refl).
Defined.

(** ** The speech worker *)

(** A pass through the loop with the flag set only sleeps. *)
Lemma paused_iteration (str_of_exn : exn -> str) (uart : UARTFormatSettings)
    (env : SpeechEnv) (self : SpeechRecognitionThread) :
  paused self = true ->
  speech_iteration str_of_exn uart env self =
    (Ok tt,
     mkSpeech (socket_conn self) (running self) true (sp_emitted self)
              (sp_trace self ++ [Sleep])).
Proof.
  intros Hp. destruct self as [sock run ps em tr]. cbn in Hp. subst ps.
  reflexivity.
Qed.

(** A pass with the flag clear returns, starts by opening the microphone,
    and leaves both flags as they were. *)
Lemma unpaused_iteration (str_of_exn : exn -> str) (uart : UARTFormatSettings)
    (env : SpeechEnv) (self : SpeechRecognitionThread) :
  paused self = false ->
  exists (self' : SpeechRecognitionThread) (rest : list action),
    speech_iteration str_of_exn uart env self = (Ok tt, self')
    /\ sp_trace self' = sp_trace self ++ OpenMicrophone :: rest
    /\ running self' = running self
    /\ paused self' = false.
Proof.
  intros Hp. destruct self as [sock run ps em tr]. cbn in Hp. subst ps.
  destruct env as [o a l r].
  run_speech. cbn [env_open env_adjust env_listen env_recognize].
  destruct o as [[]|eo]; cbn;
    [|eexists; eexists; repeat split; rewrite <- ?app_assoc; reflexivity].
  destruct a as [[]|ea]; cbn;
    [|eexists; eexists; repeat split; rewrite <- ?app_assoc; reflexivity].
  destruct l as [[]|el]; cbn;
    [|destruct el; cbn; eexists; eexists; repeat split;
      rewrite <- ?app_assoc; reflexivity].
  destruct r as [text|er]; cbn;
    [|destruct er; cbn; eexists; eexists; repeat split;
      rewrite <- ?app_assoc; reflexivity].
  destruct (format_message uart (MStr text)) as [b|ef]; cbn;
    [|destruct ef; cbn; eexists; eexists; repeat split;
      rewrite <- ?app_assoc; reflexivity].
  destruct (sock_fail sock); cbn;
    eexists; eexists; repeat split; rewrite <- ?app_assoc; reflexivity.
Qed.

Lemma paused_run (str_of_exn : exn -> str) (uart : UARTFormatSettings)
    (envs : list SpeechEnv) :
  forall self : SpeechRecognitionThread,
    paused self = true -> running self = true ->
    speech_run str_of_exn uart (map SpIterate envs) self =
      (Ok tt,
       mkSpeech (socket_conn self) true true (sp_emitted self)
                (sp_trace self ++ repeat Sleep (List.length envs))).
Proof.
  induction envs as [|env envs IH]; intros self Hp Hr.
  - destruct self; cbn in *; subst. unfold ret. now rewrite app_nil_r.
  - cbn [map speech_run]. unfold bind at 1, get. rewrite Hr.
    unfold bind at 1. rewrite (paused_iteration _ _ _ _ Hp).
    rewrite IH by (cbn; first [reflexivity | exact Hr]).
    cbn. now rewrite <- app_assoc.
Qed.

(** C9: while [paused] is set the worker makes no recognition attempt:
    a pass through its loop in that state opens no microphone, calls no
    recognizer, sends nothing on the socket and emits nothing, it only
    sleeps, and so does every further pass until [resume]; [pause] leaves
    [running] alone, and the first pass after [resume] opens the
    microphone again. *)
Theorem paused_worker_makes_no_attempt (str_of_exn : exn -> str)
    (uart : UARTFormatSettings) (self : SpeechRecognitionThread)
    (Hrun : running self = true) :
  (forall (env : SpeechEnv) (st : SpeechRecognitionThread),
     paused st = true ->
     speech_iteration str_of_exn uart env st =
       (Ok tt,
        mkSpeech (socket_conn st) (running st) true (sp_emitted st)
                 (sp_trace st ++ [Sleep])))
  /\ (forall envs : list SpeechEnv,
     speech_run str_of_exn uart (SpPause :: map SpIterate envs) self =
       (Ok tt,
        mkSpeech (socket_conn self) true true (sp_emitted self)
                 (sp_trace self ++ repeat Sleep (List.length envs))))
  /\ running (pause self) = running self
  /\ (forall (envs : list SpeechEnv) (env : SpeechEnv),
        exists (self' : SpeechRecognitionThread) (rest : list action),
          speech_run str_of_exn uart
            (SpPause :: map SpIterate envs ++ [SpResume; SpIterate env]) self
          = (Ok tt, self')
          /\ running self' = true
          /\ sp_trace self' =
             sp_trace self ++ repeat Sleep (List.length envs)
             ++ OpenMicrophone :: rest).
Proof.
  split; [|split; [|split]].
  - intros env st. apply paused_iteration.
  - intros envs. cbn [speech_run]. unfold bind at 1, modify.
    now rewrite paused_run.
  - reflexivity.
  - intros envs env.
    assert (Hgen : forall st : SpeechRecognitionThread,
               paused st = true -> running st = true ->
               exists self' rest,
                 speech_run str_of_exn uart
                   (map SpIterate envs ++ [SpResume; SpIterate env]) st
                 = (Ok tt, self')
                 /\ running self' = true
                 /\ sp_trace self' =
                    sp_trace st ++ repeat Sleep (List.length envs)
                    ++ OpenMicrophone :: rest).
    { induction envs as [|e0 envs IH]; intros st Hp Hr.
      - cbn [map app speech_run List.length repeat].
        unfold bind at 1, modify. unfold bind at 1, get.
        cbn [resume running]. rewrite Hr. unfold bind at 1.
        destruct (unpaused_iteration str_of_exn uart env (resume st)
                    eq_refl) as (st' & rest & -> & Htr & Hr' & _).
        exists st', rest. unfold ret. repeat split.
        + now rewrite Hr'.
        + exact Htr.
      - cbn [map app speech_run]. unfold bind at 1, get. rewrite Hr.
        unfold bind at 1. rewrite (paused_iteration _ _ _ _ Hp).
        destruct (IH (mkSpeech (socket_conn st) (running st) true
                        (sp_emitted st) (sp_trace st ++ [Sleep]))
                    eq_refl Hr) as (st' & rest & -> & Hr' & Htr).
        exists st', rest. repeat split; [exact Hr'|].
        rewrite Htr. cbn. now rewrite <- app_assoc. }
    cbn [speech_run]. unfold bind at 1, modify.
    apply (Hgen (pause self)); [reflexivity | exact Hrun].
Qed.

Lemma paused_worker_makes_no_attempt_witness :
  let str_of_exn := fun _ : exn => lit "error" in
  let env := mkEnv (Ok tt) (Ok tt) (Ok tt) (Ok (lit "go")) in
  let self := mkSpeech (mkSocket false [] []) true false [] [] in
  speech_run str_of_exn default_settings
    [SpPause; SpIterate env; SpIterate env] self
  = (Ok tt, mkSpeech (mkSocket false [] []) true true [] [Sleep; Sleep]).
Proof.
  intros str_of_exn env self.
  exact (proj1 (proj2 (paused_worker_makes_no_attempt str_of_exn
                         default_settings self eq_refl)) [env; env]).
Defined.

(** ** The manual send slots *)

(** [bytes.fromhex] has one way to fail. *)
Lemma fromhex_raises_aux (n : nat) :
  forall (s : str) (e : exn),
    (List.length s <= n)%nat -> bytes_fromhex s = Raise e -> e = ValueError.
Proof.
  induction n as [|n IH]; intros s e Hlen H.
  - destruct s; [discriminate H | simpl in Hlen; lia].
  - destruct s as [|c rest]; [discriminate H|].
    simpl in Hlen. cbn [bytes_fromhex] in H.
    destruct (is_ascii_space c).
    + apply (IH rest); [lia | exact H].
    + destruct (digit_value c) as [top|]; [|now injection H as <-].
      destruct rest as [|d rest']; [now injection H as <-|].
      destruct (digit_value d) as [bot|]; [|now injection H as <-].
      apply (IH rest'); [simpl in Hlen; lia|].
      destruct (bytes_fromhex rest'); [discriminate H | exact H].
Qed.

Lemma fromhex_raises (s : str) (e : exn) :
  bytes_fromhex s = Raise e -> e = ValueError.
Proof. apply (fromhex_raises_aux (List.length s)); lia. Qed.

Lemma hexdigit_not_space (c : codepoint) :
  is_hexdigit c = true -> is_ascii_space c = false.
Proof.
  unfold is_hexdigit, digit_value, is_ascii_space.
  destruct (N.leb_spec 48 c), (N.leb_spec c 57), (N.leb_spec 97 c),
    (N.leb_spec c 102), (N.leb_spec 65 c), (N.leb_spec c 70),
    (N.leb_spec 9 c), (N.leb_spec c 13), (N.eqb_spec c 32);
    cbn; intros; try reflexivity; try discriminate; lia.
Qed.

(** A character that is neither a hex digit nor ASCII whitespace, anywhere
    in the text, makes [bytes.fromhex] raise. *)
Lemma fromhex_bad_char_aux (c : codepoint) (n : nat) :
  is_hexdigit c = false -> is_ascii_space c = false ->
  forall s : str,
    (List.length s <= n)%nat -> In c s -> bytes_fromhex s = Raise ValueError.
Proof.
  intros Hhex Hsp.
  induction n as [|n IH]; intros s Hlen Hin.
  - destruct s; [contradiction | simpl in Hlen; lia].
  - destruct s as [|c0 rest]; [contradiction|].
    simpl in Hlen. cbn [bytes_fromhex].
    destruct (is_ascii_space c0) eqn:Hc0.
    + apply IH; [lia|]. destruct Hin as [->|Hin]; [congruence | exact Hin].
    + destruct (digit_value c0) as [top|] eqn:Hd0; [|reflexivity].
      destruct rest as [|d rest']; [reflexivity|].
      destruct (digit_value d) as [bot|] eqn:Hd; [|reflexivity].
      rewrite IH; [reflexivity | simpl in Hlen; lia |].
      unfold is_hexdigit in Hhex.
      destruct Hin as [->|[->|Hin]]; [rewrite Hd0 in Hhex; discriminate
                                     | rewrite Hd in Hhex; discriminate
                                     | exact Hin].
Qed.

Lemma fromhex_bad_char (c : codepoint) (s : str) :
  In c s -> is_hexdigit c = false -> is_ascii_space c = false ->
  bytes_fromhex s = Raise ValueError.
Proof.
  intros Hin Hhex Hsp.
  apply (fromhex_bad_char_aux c (List.length s) Hhex Hsp); [lia | exact Hin].
Qed.

(** An odd number of hex digits, and nothing else, makes it raise. *)
Lemma fromhex_odd_digits_aux (n : nat) :
  forall s : str,
    (List.length s <= n)%nat ->
    forallb is_hexdigit s = true -> Nat.odd (List.length s) = true ->
    bytes_fromhex s = Raise ValueError.
Proof.
  induction n as [|n IH]; intros s Hlen Hall Hodd.
  - destruct s; [discriminate Hodd | simpl in Hlen; lia].
  - destruct s as [|c rest]; [discriminate Hodd|].
    cbn [forallb] in Hall. apply andb_true_iff in Hall as [Hc Hall].
    cbn [bytes_fromhex]. rewrite (hexdigit_not_space c Hc).
    unfold is_hexdigit in Hc.
    destruct (digit_value c) as [top|]; [|reflexivity].
    destruct rest as [|d rest']; [reflexivity|].
    cbn [forallb] in Hall. apply andb_true_iff in Hall as [Hd Hall].
    unfold is_hexdigit in Hd.
    destruct (digit_value d) as [bot|]; [|reflexivity].
    rewrite IH; [reflexivity | simpl in Hlen; lia | exact Hall |].
    exact Hodd.
Qed.

Lemma fromhex_odd_digits (s : str) :
  forallb is_hexdigit s = true -> Nat.odd (List.length s) = true ->
  bytes_fromhex s = Raise ValueError.
Proof. apply (fromhex_odd_digits_aux (List.length s)); lia. Qed.

(** Removing spaces commutes with stripping. *)
Lemma remove_spaces_lstrip (s : str) :
  remove_spaces (lstrip s) = lstrip (remove_spaces s).
Proof.
  induction s as [|c s IH]; [reflexivity|].
  cbn [lstrip]. destruct (is_unicode_space c) eqn:Hws.
  - rewrite IH. cbn [remove_spaces filter].
    destruct (negb (c =? SPACE)); [|reflexivity].
    cbn [lstrip]. now rewrite Hws.
  - cbn [remove_spaces filter].
    destruct (N.eqb_spec c SPACE) as [->|_]; [discriminate Hws|].
    cbn [negb lstrip]. now rewrite Hws.
Qed.

Lemma remove_spaces_strip (s : str) :
  remove_spaces (strip s) = strip (remove_spaces s).
Proof.
  unfold strip, rstrip.
  rewrite remove_spaces_lstrip. f_equal.
  unfold remove_spaces at 1. rewrite filter_rev. f_equal.
  fold (remove_spaces (lstrip (rev s))).
  rewrite remove_spaces_lstrip. f_equal.
  unfold remove_spaces. now rewrite filter_rev.
Qed.

Lemma lstrip_head (s : str) (c : codepoint) (r : str) :
  lstrip s = c :: r -> is_unicode_space c = false.
Proof.
  induction s as [|a s IH]; [discriminate|].
  cbn [lstrip]. destruct (is_unicode_space a) eqn:Ha; [exact IH|].
  now intros [= <- _].
Qed.

(** The stripped text is empty exactly when nothing is left of it once the
    spaces are out. *)
Lemma truthy_remove_spaces_strip (s : str) :
  truthy (remove_spaces (strip s)) = truthy (strip s).
Proof.
  unfold strip. destruct (lstrip (rstrip s)) as [|c r] eqn:H; [reflexivity|].
  cbn [remove_spaces filter].
  destruct (N.eqb_spec c SPACE) as [->|_]; [|reflexivity].
  apply lstrip_head in H. discriminate H.
Qed.

(** What [send_hex] does, spelled out along the text [h] that reaches
    [bytes.fromhex]: the field's contents stripped and with the spaces
    removed. *)
Lemma send_hex_unfold (g : GUI) :
  send_hex g =
    match server_thread g with
    | None => (Ok tt, append_log [lit "Not connected to server"] g)
    | Some th =>
        if negb (connected th) then
          (Ok tt, append_log [lit "Not connected to server"] g)
        else
          let h := remove_spaces (strip (text_input g)) in
          if truthy h then
            match bytes_fromhex h with
            | Raise _ => (Ok tt, append_log [invalid_hex_line] g)
            | Ok b =>
                match socket th with
                | None => (Raise AttributeError, g)
                | Some sock =>
                    let th' f w :=
                      mkServer (host th) (port th)
                        (Some (mkSocket f (sock_calls sock ++ [b]) w))
                        (connected th) (emitted th) in
                    if sock_fail sock then
                      (Raise OSError,
                       set_server_thread (Some (th' true (sock_wire sock))) g)
                    else
                      (Ok tt,
                       mkGUI (uart_settings g)
                         (Some (th' false (sock_wire sock ++ b))) []
                         (log_text g ++ [lit "Sent hex: " ++ hex_repr b])
                         (show_hex_checkbox g))
                end
            end
          else (Ok tt, g)
    end.
Proof.
  unfold send_hex, bind, get, not_connected, log, modify.
  destruct g as [uart [[hst prt so [|] em]|] text lines hex];
    try reflexivity.
  cbn [server_thread text_input connected negb].
  cbv zeta. rewrite truthy_remove_spaces_strip.
  destruct (truthy (strip text)); [|reflexivity].
  unfold try_except, bind, lift, server_socket_sendall, socket_sendall,
    sendall, modify.
  destruct (bytes_fromhex (remove_spaces (strip text))) as [b|e] eqn:Hb.
  - cbn [server_thread socket].
    destruct so as [sock|]; [|reflexivity].
    destruct (sock_fail sock) eqn:Hf; cbn; rewrite ?Hf; reflexivity.
  - rewrite (fromhex_raises _ _ Hb). reflexivity.
Qed.

(** C4: the hex-send slot removes every space from the text before it is
    decoded, so two inputs that are equal once their spaces are removed
    have the same effect on the socket: the same [sendall] call with the
    same bytes (or none), the same bytes on the wire, the same outcome and
    the same log line.  "AB CD EF" and "ABCDEF" are such a pair. *)
Theorem send_hex_ignores_spaces (g : GUI) (s1 s2 : str)
    (Hsame : remove_spaces s1 = remove_spaces s2) :
  let r1 := send_hex (set_text_input s1 g) in
  let r2 := send_hex (set_text_input s2 g) in
  fst r1 = fst r2
  /\ server_thread (snd r1) = server_thread (snd r2)
  /\ log_text (snd r1) = log_text (snd r2).
Proof.
  cbv zeta. rewrite !send_hex_unfold.
  cbn [server_thread set_text_input text_input].
  rewrite !remove_spaces_strip, Hsame.
  destruct (server_thread g) as [th|]; [|repeat split].
  destruct (negb (connected th)); [repeat split|].
  cbv zeta.
  destruct (truthy (strip (remove_spaces s2))); [|repeat split].
  destruct (bytes_fromhex (strip (remove_spaces s2))); [|repeat split].
  destruct (socket th) as [sock|]; [|repeat split].
  destruct (sock_fail sock); repeat split.
Qed.

Lemma send_hex_ignores_spaces_witness :
  let th := mkServer (lit "192.168.1.1") 288 (Some (mkSocket false [] []))
                     true [] in
  let g := mkGUI default_settings (Some th) [] [] false in
  let sent := Some (mkServer (lit "192.168.1.1") 288
                      (Some (mkSocket false [[xab; xcd; xef]]
                                      [xab; xcd; xef])) true []) in
  server_thread (snd (send_hex (set_text_input (lit "AB CD EF") g))) = sent
  /\ server_thread (snd (send_hex (set_text_input (lit "ABCDEF") g))) = sent.
Proof.
  intros th g sent.
  pose proof (send_hex_ignores_spaces g (lit "AB CD EF") (lit "ABCDEF")
                eq_refl) as H.
  cbv zeta in H. destruct H as (_ & H & _).
  split; [rewrite H|]; reflexivity.
Defined.

(** C5, as the code has it.  With the connection open, an input is
    rejected exactly when [bytes.fromhex] raises on it, once stripped and
    with its spaces removed: then no [sendall] call is made, the "Invalid
    hex format" line is logged and the text field keeps its contents.  An
    odd number of hex digits is rejected, and so is any text holding a
    character that is neither a hex digit nor ASCII whitespace.  An input
    that is not blank and that [bytes.fromhex] accepts has its bytes
    written in one [sendall] call, a "Sent hex" line logged and the field
    cleared, provided the write succeeds. *)
Theorem send_hex_rejects_or_sends (g : GUI) (th : ServerConnectionThread)
    (sock : Socket)
    (Hth : server_thread g = Some th)
    (Hconn : connected th = true)
    (Hsock : socket th = Some sock) :
  let h := remove_spaces (strip (text_input g)) in
  ((exists e, bytes_fromhex h = Raise e) ->
   send_hex g =
     (Ok tt,
      mkGUI (uart_settings g) (Some th) (text_input g)
            (log_text g ++ [invalid_hex_line]) (show_hex_checkbox g)))
  /\ ((forallb is_hexdigit h = true /\ Nat.odd (List.length h) = true)
      \/ (exists c, In c h /\ is_hexdigit c = false
                    /\ is_ascii_space c = false) ->
      bytes_fromhex h = Raise ValueError)
  /\ (forall b : bytes,
        h <> [] -> bytes_fromhex h = Ok b -> sock_fail sock = false ->
        send_hex g =
          (Ok tt,
           mkGUI (uart_settings g)
             (Some (mkServer (host th) (port th)
                      (Some (mkSocket false (sock_calls sock ++ [b])
                                      (sock_wire sock ++ b)))
                      true (emitted th)))
             []
             (log_text g ++ [lit "Sent hex: " ++ hex_repr b])
             (show_hex_checkbox g))).
Proof.
  cbv zeta. rewrite send_hex_unfold, Hth, Hconn, Hsock. cbn [negb]. cbv zeta.
  split; [|split].
  - intros [e He]. rewrite He.
    destruct (remove_spaces (strip (text_input g)));
      [discriminate He|].
    cbn [truthy]. unfold append_log. now rewrite Hth.
  - intros [[Hall Hodd]|(c & Hin & Hhex & Hsp)].
    + now apply fromhex_odd_digits.
    + now apply (fromhex_bad_char c).
  - intros b Hne Hb Hf. rewrite Hb, Hf.
    destruct (remove_spaces (strip (text_input g))); [contradiction|].
    reflexivity.
Qed.

Lemma send_hex_rejects_or_sends_witness :
  let sock := mkSocket false [] [] in
  let th := mkServer (lit "192.168.1.1") 288 (Some sock) true [] in
  let g t := mkGUI default_settings (Some th) t [] false in
  send_hex (g (lit "AB C")) =
    (Ok tt, mkGUI default_settings (Some th) (lit "AB C")
                  [invalid_hex_line] false)
  /\ bytes_fromhex (remove_spaces (strip (lit "AB CG"))) = Raise ValueError
  /\ send_hex (g (lit " ab 01 ")) =
       (Ok tt,
        mkGUI default_settings
          (Some (mkServer (lit "192.168.1.1") 288
                   (Some (mkSocket false [[xab; x01]] [xab; x01])) true []))
          [] [lit "Sent hex: ab 01"] false).
Proof.
  intros sock th g.
  split; [|split].
  - apply (proj1 (send_hex_rejects_or_sends (g (lit "AB C")) th sock
                    eq_refl eq_refl eq_refl)).
    exists ValueError. reflexivity.
  - apply (proj1 (proj2 (send_hex_rejects_or_sends (g (lit "AB CG")) th sock
                           eq_refl eq_refl eq_refl))).
    right. exists 71. repeat split. cbn. tauto.
  - apply (proj2 (proj2 (send_hex_rejects_or_sends (g (lit " ab 01 ")) th
                           sock eq_refl eq_refl eq_refl))
             [xab; x01]); [discriminate | reflexivity | reflexivity].
Defined.

(** C5 fails as stated: a line break between two byte pairs, or after the
    last one, makes the input invalid in the claim's sense (five
    characters, one of them no hex digit), yet the bytes are sent and the
    field is cleared. *)
Lemma send_hex_accepts_line_break :
  let th := mkServer (lit "192.168.1.1") 288 (Some (mkSocket false [] []))
                     true [] in
  let g t := mkGUI default_settings (Some th) t [] false in
  let inner := lit "AB" ++ [LF] ++ lit "CD" in
  let trailing := lit "ABCD" ++ [LF] in
  let sent := mkGUI default_settings
                (Some (mkServer (lit "192.168.1.1") 288
                         (Some (mkSocket false [[xab; xcd]] [xab; xcd]))
                         true []))
                [] [lit "Sent hex: ab cd"] false in
  spec_invalid_hex inner = true
  /\ send_hex (g inner) = (Ok tt, sent)
  /\ spec_invalid_hex trailing = true
  /\ send_hex (g trailing) = (Ok tt, sent).
Proof. repeat split. Qed.

(** C10, as the code has it.  With the connection open, the text-send slot
    works on the stripped contents of the field: when nothing is left of
    them (the field is empty or holds only whitespace) nothing happens at
    all, no write, no log line, the field as it was; otherwise the
    stripped text is what gets formatted and written, and after a
    successful write a "Sent" line is logged and the field cleared. *)
Theorem send_text_strips_and_skips_blank (str_of_exn : exn -> str) (g : GUI)
    (th : ServerConnectionThread) (sock : Socket)
    (Hth : server_thread g = Some th)
    (Hconn : connected th = true)
    (Hsock : socket th = Some sock) :
  (strip (text_input g) = [] -> send_text str_of_exn g = (Ok tt, g))
  /\ (forall b : bytes,
        strip (text_input g) <> [] ->
        format_message (uart_settings g) (MStr (strip (text_input g))) = Ok b ->
        sock_fail sock = false ->
        send_text str_of_exn g =
          (Ok tt,
           mkGUI (uart_settings g)
             (Some (mkServer (host th) (port th)
                      (Some (mkSocket false (sock_calls sock ++ [b])
                                      (sock_wire sock ++ b)))
                      true (emitted th)))
             []
             (log_text g
              ++ [if show_hex_checkbox g then
                    lit "Sent: " ++ strip (text_input g) ++ lit " [Hex: "
                    ++ hex_repr b ++ lit "]"
                  else lit "Sent: " ++ strip (text_input g)])
             (show_hex_checkbox g))).
Proof.
  destruct g as [uart o text lines hex]. cbn in Hth. subst o.
  destruct th as [hst prt so c em]. cbn in Hconn, Hsock. subst c so.
  cbn [text_input uart_settings log_text show_hex_checkbox host port emitted].
  unfold send_text, bind, get, not_connected.
  cbn [server_thread connected negb text_input uart_settings
       show_hex_checkbox].
  split.
  - intros ->. reflexivity.
  - intros b Hne Hb Hf.
    assert (Ht : truthy (strip text) = true)
      by (destruct (strip text); [contradiction | reflexivity]).
    rewrite Ht.
    unfold call_send_message, send_message, bind, get, try_except, lift,
      socket_sendall, sendall, ret.
    cbn [server_thread uart_settings connected socket is_some andb emitted].
    rewrite Hb, Hf.
    cbn [set_socket host port connected socket emitted].
    rewrite skipn_all. cbn [error_lines].
    unfold log, modify, append_log, set_server_thread, set_text_input.
    destruct hex;
      cbn [uart_settings server_thread text_input log_text show_hex_checkbox];
      now rewrite app_nil_r.
Qed.

Lemma send_text_strips_and_skips_blank_witness :
  let str_of_exn := fun _ : exn => lit "error" in
  let sock := mkSocket false [] [] in
  let th := mkServer (lit "192.168.1.1") 288 (Some sock) true [] in
  let g t := mkGUI default_settings (Some th) t [] true in
  send_text str_of_exn (g (lit "   ")) = (Ok tt, g (lit "   "))
  /\ send_text str_of_exn (g (lit " go ")) =
       (Ok tt,
        mkGUI default_settings
          (Some (mkServer (lit "192.168.1.1") 288
                   (Some (mkSocket false [[x67; x6f; x0a]]
                                   [x67; x6f; x0a])) true []))
          [] [lit "Sent: go [Hex: 67 6f 0a]"] true).
Proof.
  intros str_of_exn sock th g.
  split.
  - apply (proj1 (send_text_strips_and_skips_blank str_of_exn
                    (g (lit "   ")) th sock eq_refl eq_refl eq_refl)).
    reflexivity.
  - apply (proj2 (send_text_strips_and_skips_blank str_of_exn
                    (g (lit " go ")) th sock eq_refl eq_refl eq_refl)
             [x67; x6f; x0a]); [discriminate | reflexivity | reflexivity].
Defined.

(** C10 fails as stated: with no connection open, an empty field still
    gets a line logged. *)
Lemma send_text_blank_logs_when_not_connected :
  let str_of_exn := fun _ : exn => lit "error" in
  let g := mkGUI default_settings None [] [] false in
  send_text str_of_exn g =
    (Ok tt,
     mkGUI default_settings None [] [lit "Not connected to server"] false)
  /\ log_text (snd (send_text str_of_exn g)) <> log_text g.
Proof.
  split; [reflexivity | discriminate].
Qed.

(** * Further properties of the code *)

(** ** The formatter *)

Lemma format_message_terminator (self : UARTFormatSettings) (s : str) :
  format_message self (MStr s) = utf8_encode (s ++ terminator self).
Proof. apply format_message_str. Qed.

Lemma utf8_encode_cp_raises (c : codepoint) (e : exn) :
  utf8_encode_cp c = Raise e -> e = UnicodeEncodeError /\ is_scalar c = false.
Proof.
  unfold utf8_encode_cp, is_scalar.
  destruct (c <? 0x80); [discriminate|].
  destruct (c <? 0x800); [discriminate|].
  destruct (c <? 0x10000).
  - destruct (is_surrogate c); [|discriminate].
    intros [= <-]. auto.
  - destruct (c <=? 0x10FFFF); [discriminate|].
    intros [= <-]. split; [reflexivity|]. apply andb_false_r.
Qed.

Lemma utf8_encode_raises (s : str) (e : exn) :
  utf8_encode s = Raise e ->
  e = UnicodeEncodeError /\ forallb is_scalar s = false.
Proof.
  revert e. induction s as [|c s IH]; intros e; [discriminate|].
  cbn [utf8_encode forallb].
  destruct (utf8_encode_cp c) as [bc|ec] eqn:Hc.
  - destruct (utf8_encode s) as [bs|es]; [discriminate|].
    intros [= <-]. destruct (IH es eq_refl) as [-> Hs].
    split; [reflexivity|]. rewrite Hs. apply andb_false_r.
  - intros [= <-]. destruct (utf8_encode_cp_raises c ec Hc) as [-> Hn].
    now rewrite Hn.
Qed.

(** X1: a [bytes] argument comes back unchanged when neither terminator
    flag is set, with or without [hex_output]; with either flag set the
    concatenation with the [str] terminator raises [TypeError]. *)
Theorem format_message_bytes (self : UARTFormatSettings) (b : bytes) :
  (add_cr self = false -> add_lf self = false ->
   format_message self (MBytes b) = Ok b)
  /\ (add_cr self = true \/ add_lf self = true ->
      format_message self (MBytes b) = Raise TypeError).
Proof.
  unfold format_message. split.
  - intros -> ->. cbn. destruct (hex_output self); auto using fromhex_hex.
  - destruct (add_cr self), (add_lf self); intros [H|H];
      try discriminate H; reflexivity.
Qed.

Lemma format_message_bytes_witness :
  format_message (mkUART 8 ParityN Stop1 9600 false false true)
                 (MBytes [xff; x00]) = Ok [xff; x00]
  /\ format_message default_settings (MBytes [xff; x00]) = Raise TypeError.
Proof.
  split.
  - apply (proj1 (format_message_bytes
                    (mkUART 8 ParityN Stop1 9600 false false true)
                    [xff; x00])); reflexivity.
  - apply (proj2 (format_message_bytes default_settings [xff; x00])).
    right; reflexivity.
Defined.

Lemma format_message_utf8 (self : UARTFormatSettings) (s : str) (b : bytes) :
  format_message self (MStr s) = Ok b ->
  utf8_decode b = Ok (s ++ terminator self).
Proof.
  rewrite format_message_terminator. apply utf8_decode_encode.
Qed.

(** X2: the bytes that [format_message] returns for a text are well-formed
    UTF-8: decoding them gives the text followed by the terminator. *)
Theorem format_message_decodes_back (self : UARTFormatSettings) (s : str)
    (b : bytes) (Hb : format_message self (MStr s) = Ok b) :
  utf8_decode b = Ok (s ++ terminator self).
Proof.
  apply format_message_utf8. exact Hb.
Qed.

Lemma format_message_decodes_back_witness :
  utf8_decode [x67; x6f; x0a] = Ok (lit "go" ++ [LF]).
Proof.
  exact (format_message_decodes_back default_settings (lit "go")
           [x67; x6f; x0a] eq_refl).
Defined.

(** X3: under one configuration two different texts are never formatted
    to the same bytes. *)
Theorem format_message_injective (self : UARTFormatSettings) (s1 s2 : str)
    (b : bytes)
    (H1 : format_message self (MStr s1) = Ok b)
    (H2 : format_message self (MStr s2) = Ok b) :
  s1 = s2.
Proof.
  apply format_message_utf8 in H1, H2.
  rewrite H1 in H2. injection H2 as H2.
  now apply app_inv_tail in H2.
Qed.

Lemma format_message_injective_witness : lit "go" = lit "go".
Proof.
  exact (format_message_injective default_settings (lit "go") (lit "go")
           [x67; x6f; x0a] eq_refl eq_refl).
Defined.

Lemma utf8_encode_scalar_inv (s t : str) (b : bytes) :
  utf8_encode (s ++ t) = Ok b ->
  forallb is_scalar s = true /\ forallb is_scalar t = true.
Proof.
  intros Hb. rewrite <- andb_true_iff, <- forallb_app.
  revert b Hb. generalize (s ++ t). clear s t.
  induction l as [|c l IH]; intros b Hb; [reflexivity|].
  cbn [utf8_encode forallb] in *.
  destruct (utf8_encode_cp c) as [bc|ec] eqn:Hc; [|discriminate Hb].
  destruct (utf8_encode l) as [bs|es]; [|discriminate Hb].
  rewrite (IH bs eq_refl), andb_true_r.
  unfold utf8_encode_cp, is_scalar, is_surrogate in *.
  destruct (N.ltb_spec c 0x80); [decide_cmp; reflexivity|].
  destruct (N.ltb_spec c 0x800); [decide_cmp; reflexivity|].
  destruct (N.ltb_spec c 0x10000).
  - destruct ((0xD800 <=? c) && (c <=? 0xDFFF)); [discriminate Hc|].
    decide_cmp. reflexivity.
  - destruct (N.leb_spec c 0x10FFFF); [|discriminate Hc].
    decide_cmp. reflexivity.
Qed.

(** X4: [format_message] fails on a text exactly when the text holds a
    code point that is a surrogate (or lies above U+10FFFF), and the only
    exception it raises then is [UnicodeEncodeError]. *)
Theorem format_message_fails_iff (self : UARTFormatSettings) (s : str) :
  (format_message self (MStr s) = Raise UnicodeEncodeError
   <-> forallb is_scalar s = false)
  /\ (forall e : exn,
        format_message self (MStr s) = Raise e -> e = UnicodeEncodeError).
Proof.
  rewrite format_message_terminator.
  split; [split|].
  - intros H. apply utf8_encode_raises in H as [_ H].
    rewrite forallb_app in H. apply andb_false_iff in H as [H|H];
      [exact H|].
    unfold terminator in H.
    destruct (add_cr self), (add_lf self); discriminate H.
  - intros H.
    destruct (utf8_encode (s ++ terminator self)) as [b|e] eqn:He.
    + apply utf8_encode_scalar_inv in He as [He _].
      rewrite H in He. discriminate He.
    + now destruct (utf8_encode_raises _ _ He) as [-> _].
  - intros e He. now apply utf8_encode_raises in He.
Qed.

Lemma format_message_fails_iff_witness :
  format_message default_settings (MStr (lit "go" ++ [0xDFFF]))
  = Raise UnicodeEncodeError.
Proof.
  apply (proj1 (format_message_fails_iff default_settings
                  (lit "go" ++ [0xDFFF]))).
  reflexivity.
Defined.

Lemma utf8_encode_length (s : str) (b : bytes) :
  utf8_encode s = Ok b ->
  (List.length s <= List.length b <= 4 * List.length s)%nat.
Proof.
  revert b. induction s as [|c s IH]; intros b.
  - intros [= <-]. cbn. lia.
  - cbn [utf8_encode].
    destruct (utf8_encode_cp c) as [bc|ec] eqn:Hc; [|discriminate].
    destruct (utf8_encode s) as [bs|es]; [|discriminate].
    intros [= <-]. specialize (IH bs eq_refl).
    assert (1 <= List.length bc <= 4)%nat.
    { unfold utf8_encode_cp in Hc.
      repeat match type of Hc with
             | (if ?x then _ else _) = _ => destruct x
             end; try discriminate Hc; injection Hc as <-; cbn; lia. }
    rewrite length_app. cbn [List.length]. lia.
Qed.

(** X5: the formatted message has at least one byte and at most four bytes
    per character of the text, plus one byte per terminator character. *)
Theorem format_message_length (self : UARTFormatSettings) (s : str)
    (b : bytes) (Hb : format_message self (MStr s) = Ok b) :
  (List.length s + List.length (terminator self) <= List.length b
   <= 4 * List.length s + List.length (terminator self))%nat.
Proof.
  rewrite format_message_terminator, utf8_encode_app in Hb.
  destruct (utf8_encode s) as [bs|] eqn:Hs; [|discriminate Hb].
  apply utf8_encode_length in Hs.
  assert (Ht : utf8_encode (terminator self)
               = Ok (map byte_of_N (terminator self))).
  { unfold terminator. destruct (add_cr self), (add_lf self); reflexivity. }
  rewrite Ht in Hb. cbn in Hb. injection Hb as <-.
  rewrite length_app, length_map. unfold codepoint in *. lia.
Qed.

Lemma format_message_length_witness :
  (2 + 1 <= 3 <= 4 * 2 + 1)%nat.
Proof.
  exact (format_message_length default_settings (lit "go")
           [x67; x6f; x0a] eq_refl).
Defined.

(** ** The manual send slots, further *)

Lemma skipn_length_app {A} (l l' : list A) :
  skipn (List.length l) (l ++ l') = l'.
Proof. induction l; [reflexivity | assumption]. Qed.

(** What [send_text] does, spelled out case by case. *)
Lemma send_text_unfold (str_of_exn : exn -> str) (g : GUI) :
  send_text str_of_exn g =
    match server_thread g with
    | None => (Ok tt, append_log [lit "Not connected to server"] g)
    | Some th =>
        if negb (connected th) then
          (Ok tt, append_log [lit "Not connected to server"] g)
        else
          let text := strip (text_input g) in
          if truthy text then
            match socket th with
            | None => (Ok tt, append_log [lit "Failed to send message"] g)
            | Some sock =>
                match format_message (uart_settings g) (MStr text) with
                | Raise e =>
                    let line := lit "Failed to send message: " ++ str_of_exn e in
                    (Ok tt,
                     mkGUI (uart_settings g)
                       (Some (mkServer (host th) (port th) (Some sock) true
                                (emitted th ++ [connection_error line])))
                       (text_input g)
                       (log_text g ++ [line; lit "Failed to send message"])
                       (show_hex_checkbox g))
                | Ok b =>
                    if sock_fail sock then
                      let line := lit "Failed to send message: "
                                  ++ str_of_exn OSError in
                      (Ok tt,
                       mkGUI (uart_settings g)
                         (Some (mkServer (host th) (port th)
                                  (Some (mkSocket true (sock_calls sock ++ [b])
                                                  (sock_wire sock)))
                                  true
                                  (emitted th ++ [connection_error line])))
                         (text_input g)
                         (log_text g ++ [line; lit "Failed to send message"])
                         (show_hex_checkbox g))
                    else
                      (Ok tt,
                       mkGUI (uart_settings g)
                         (Some (mkServer (host th) (port th)
                                  (Some (mkSocket false (sock_calls sock ++ [b])
                                                  (sock_wire sock ++ b)))
                                  true (emitted th)))
                         []
                         (log_text g
                          ++ [if show_hex_checkbox g then
                                lit "Sent: " ++ text ++ lit " [Hex: "
                                ++ hex_repr b ++ lit "]"
                              else lit "Sent: " ++ text])
                         (show_hex_checkbox g))
                end
            end
          else (Ok tt, g)
    end.
Proof.
  unfold send_text, bind, get, not_connected, log, modify.
  destruct g as [uart [[hst prt so [|] em]|] text lines hex];
    try reflexivity.
  cbn [server_thread text_input connected negb uart_settings log_text
       show_hex_checkbox host port socket emitted].
  cbv zeta.
  destruct (truthy (strip text)); [|reflexivity].
  unfold call_send_message, send_message, bind, get, try_except, lift,
    socket_sendall, sendall, ret, emit, modify, any_exception.
  cbn [server_thread uart_settings connected socket is_some andb emitted
       host port].
  destruct so as [sock|]; cbn [is_some andb].
  - destruct (format_message uart (MStr (strip text))) as [b|e].
    + destruct (sock_fail sock) eqn:Hf; cbn; rewrite ?Hf; cbn;
        rewrite ?skipn_all, ?skipn_length_app; cbn;
        unfold append_log, set_server_thread; cbn;
        rewrite ?app_nil_r, <- ?app_assoc; destruct hex; reflexivity.
    + cbn. rewrite skipn_length_app. cbn.
      unfold append_log, set_server_thread; cbn.
      now rewrite <- app_assoc.
  - rewrite skipn_all. unfold append_log, set_server_thread. cbn.
    now rewrite app_nil_r.
Qed.

Lemma lstrip_id (s : str) :
  forallb (fun c => negb (is_unicode_space c)) s = true -> lstrip s = s.
Proof.
  destruct s as [|c r]; [reflexivity|]. cbn [forallb lstrip].
  intros H. apply andb_true_iff in H as [H _].
  apply negb_true_iff in H. now rewrite H.
Qed.

Lemma strip_id (s : str) :
  forallb (fun c => negb (is_unicode_space c)) s = true -> strip s = s.
Proof.
  intros H. unfold strip, rstrip.
  rewrite (lstrip_id (rev s)).
  - rewrite rev_involutive. now apply lstrip_id.
  - rewrite forallb_forall in *. intros c Hc. apply H. now apply in_rev.
Qed.

Lemma remove_spaces_hex_repr (b : bytes) :
  remove_spaces (hex_repr b) = bytes_hex b.
Proof.
  induction b as [|x b IH]; [reflexivity|].
  destruct b as [|y b].
  - destruct x; reflexivity.
  - change (hex_repr (x :: y :: b))
      with (hex2 x ++ SPACE :: hex_repr (y :: b)).
    change (bytes_hex (x :: y :: b)) with (hex2 x ++ bytes_hex (y :: b)).
    unfold remove_spaces in *. rewrite filter_app. cbn [filter].
    rewrite N.eqb_refl. cbn [negb].
    f_equal; [destruct x; reflexivity | exact IH].
Qed.

Lemma bytes_hex_no_space (b : bytes) :
  forallb (fun c => negb (is_unicode_space c)) (bytes_hex b) = true.
Proof.
  induction b as [|x b IH]; [reflexivity|].
  change (bytes_hex (x :: b)) with (hex2 x ++ bytes_hex b).
  rewrite forallb_app, IH, andb_true_r. destruct x; reflexivity.
Qed.

(** X6: the hex that the log shows for bytes that were sent is itself an
    input of the hex-send slot: put into the text field, it sends the same
    bytes and logs the same line. *)
Theorem send_hex_resends_logged_hex (g : GUI) (th : ServerConnectionThread)
    (sock : Socket) (b : bytes)
    (Hth : server_thread g = Some th)
    (Hconn : connected th = true)
    (Hsock : socket th = Some sock)
    (Hfail : sock_fail sock = false)
    (Hb : b <> []) :
  send_hex (set_text_input (hex_repr b) g) =
    (Ok tt,
     mkGUI (uart_settings g)
       (Some (mkServer (host th) (port th)
                (Some (mkSocket false (sock_calls sock ++ [b])
                                (sock_wire sock ++ b)))
                true (emitted th)))
       []
       (log_text g ++ [lit "Sent hex: " ++ hex_repr b])
       (show_hex_checkbox g)).
Proof.
  assert (Hh : remove_spaces (strip (hex_repr b)) = bytes_hex b).
  { rewrite remove_spaces_strip, remove_spaces_hex_repr.
    apply strip_id, bytes_hex_no_space. }
  rewrite send_hex_unfold.
  cbn [server_thread set_text_input text_input uart_settings log_text
       show_hex_checkbox].
  rewrite Hth, Hconn, Hsock, Hh, fromhex_hex, Hfail. cbn [negb]. cbv zeta.
  destruct b as [|x b]; [contradiction|].
  destruct x; reflexivity.
Qed.

Lemma send_hex_resends_logged_hex_witness :
  let sock := mkSocket false [] [] in
  let th := mkServer (lit "192.168.1.1") 288 (Some sock) true [] in
  let g := mkGUI default_settings (Some th) [] [] false in
  send_hex (set_text_input (lit "ab 01") g) =
    (Ok tt,
     mkGUI default_settings
       (Some (mkServer (lit "192.168.1.1") 288
                (Some (mkSocket false [[xab; x01]] [xab; x01])) true []))
       [] [lit "Sent hex: ab 01"] false).
Proof.
  intros sock th g.
  exact (send_hex_resends_logged_hex g th sock [xab; x01]
           eq_refl eq_refl eq_refl eq_refl ltac:(discriminate)).
Defined.

(** X7: the hex-send slot does not consult the UART settings: whatever the
    terminator and hex flags are, the outcome, the socket and the log are
    the same, and no terminator is added to the bytes. *)
Theorem send_hex_ignores_uart_settings (g : GUI) (u : UARTFormatSettings) :
  let g' := mkGUI u (server_thread g) (text_input g) (log_text g)
                  (show_hex_checkbox g) in
  fst (send_hex g') = fst (send_hex g)
  /\ server_thread (snd (send_hex g')) = server_thread (snd (send_hex g))
  /\ text_input (snd (send_hex g')) = text_input (snd (send_hex g))
  /\ log_text (snd (send_hex g')) = log_text (snd (send_hex g)).
Proof.
  destruct g as [u0 st text lines hex].
  cbv zeta. rewrite !send_hex_unfold.
  cbn [server_thread text_input log_text show_hex_checkbox uart_settings].
  destruct st as [th|]; [|now repeat split].
  destruct (negb (connected th)); [now repeat split|].
  cbv zeta.
  destruct (truthy (remove_spaces (strip text))); [|now repeat split].
  destruct (bytes_fromhex (remove_spaces (strip text)));
    [|now repeat split].
  destruct (socket th) as [sock|]; [|now repeat split].
  destruct (sock_fail sock); now repeat split.
Qed.

(** X8: when the write fails in the hex-send slot the [OSError] is not
    caught: it leaves the slot, nothing is logged and the field keeps its
    contents, after the one [sendall] call that failed. *)
Theorem send_hex_write_failure_escapes (g : GUI)
    (th : ServerConnectionThread) (sock : Socket) (b : bytes)
    (Hth : server_thread g = Some th)
    (Hconn : connected th = true)
    (Hsock : socket th = Some sock)
    (Hfail : sock_fail sock = true)
    (Hne : strip (text_input g) <> [])
    (Hb : bytes_fromhex (remove_spaces (strip (text_input g))) = Ok b) :
  send_hex g =
    (Raise OSError,
     mkGUI (uart_settings g)
       (Some (mkServer (host th) (port th)
                (Some (mkSocket true (sock_calls sock ++ [b])
                                (sock_wire sock)))
                true (emitted th)))
       (text_input g) (log_text g) (show_hex_checkbox g)).
Proof.
  rewrite send_hex_unfold, Hth, Hconn, Hsock. cbn [negb]. cbv zeta.
  rewrite truthy_remove_spaces_strip, Hb, Hfail.
  destruct (strip (text_input g)); [contradiction|]. reflexivity.
Qed.

Lemma send_hex_write_failure_escapes_witness :
  let sock := mkSocket true [] [] in
  let th := mkServer (lit "192.168.1.1") 288 (Some sock) true [] in
  let g := mkGUI default_settings (Some th) (lit "AB CD") [] false in
  send_hex g =
    (Raise OSError,
     mkGUI default_settings
       (Some (mkServer (lit "192.168.1.1") 288
                (Some (mkSocket true [[xab; xcd]] [])) true []))
       (lit "AB CD") [] false).
Proof.
  intros sock th g.
  exact (send_hex_write_failure_escapes g th sock [xab; xcd]
           eq_refl eq_refl eq_refl eq_refl ltac:(discriminate) eq_refl).
Defined.

(** X9: once the connection worker has been told to disconnect, both send
    slots only log "Not connected to server": nothing is written, whatever
    the text field holds, and the field is left alone. *)
Theorem send_after_disconnect (str_of_exn : exn -> str) (g : GUI)
    (th : ServerConnectionThread)
    (Hth : server_thread g = Some th) :
  let g' := set_server_thread (Some (disconnect th)) g in
  let refused :=
    (Ok tt,
     mkGUI (uart_settings g) (Some (disconnect th)) (text_input g)
           (log_text g ++ [lit "Not connected to server"])
           (show_hex_checkbox g)) in
  send_text str_of_exn g' = refused
  /\ send_hex g' = refused
  /\ (forall sock, socket th = Some sock ->
        exists sock', socket (disconnect th) = Some sock'
                      /\ sock_calls sock' = sock_calls sock
                      /\ sock_wire sock' = sock_wire sock).
Proof.
  cbv zeta. rewrite send_text_unfold, send_hex_unfold.
  cbn [set_server_thread server_thread].
  assert (Hd : connected (disconnect th) = false).
  { unfold disconnect. cbn. destruct (socket th); reflexivity. }
  rewrite Hd. cbn [negb]. repeat split.
  intros sock Hs. unfold disconnect. cbn. rewrite Hs. cbn. eauto.
Qed.

Lemma send_after_disconnect_witness :
  let str_of_exn := fun _ : exn => lit "error" in
  let th := mkServer (lit "192.168.1.1") 288 (Some (mkSocket false [] []))
                     true [] in
  let g := mkGUI default_settings (Some th) (lit "AB") [] false in
  send_hex (set_server_thread (Some (disconnect th)) g) =
    (Ok tt,
     mkGUI default_settings (Some (disconnect th)) (lit "AB")
           [lit "Not connected to server"] false).
Proof.
  intros str_of_exn th g.
  exact (proj1 (proj2 (send_after_disconnect str_of_exn g th eq_refl))).
Defined.

(** X10: the text-send slot never lets an exception out: a text that
    cannot be encoded and a write that fails both end in log lines. *)
Theorem send_text_never_raises (str_of_exn : exn -> str) (g : GUI) :
  exists g' : GUI, send_text str_of_exn g = (Ok tt, g').
Proof.
  rewrite send_text_unfold.
  destruct (server_thread g) as [th|]; [|eauto].
  destruct (negb (connected th)); [eauto|]. cbv zeta.
  destruct (truthy (strip (text_input g))); [|eauto].
  destruct (socket th) as [sock|]; [|eauto].
  destruct (format_message _ _); [|eauto].
  destruct (sock_fail sock); eauto.
Qed.

(** X11: when the write fails in the text-send slot, two lines are logged,
    the error report of the worker and then "Failed to send message"; the
    field keeps its contents and nothing goes out on the wire. *)
Theorem send_text_write_failure (str_of_exn : exn -> str) (g : GUI)
    (th : ServerConnectionThread) (sock : Socket) (b : bytes)
    (Hth : server_thread g = Some th)
    (Hconn : connected th = true)
    (Hsock : socket th = Some sock)
    (Hfail : sock_fail sock = true)
    (Hne : strip (text_input g) <> [])
    (Hb : format_message (uart_settings g) (MStr (strip (text_input g)))
          = Ok b) :
  send_text str_of_exn g =
    (Ok tt,
     mkGUI (uart_settings g)
       (Some (mkServer (host th) (port th)
                (Some (mkSocket true (sock_calls sock ++ [b])
                                (sock_wire sock)))
                true
                (emitted th
                 ++ [connection_error
                       (lit "Failed to send message: "
                        ++ str_of_exn OSError)])))
       (text_input g)
       (log_text g
        ++ [lit "Failed to send message: " ++ str_of_exn OSError;
            lit "Failed to send message"])
       (show_hex_checkbox g)).
Proof.
  rewrite send_text_unfold, Hth, Hconn, Hsock. cbn [negb]. cbv zeta.
  rewrite Hb, Hfail.
  destruct (strip (text_input g)); [contradiction|]. reflexivity.
Qed.

Lemma send_text_write_failure_witness :
  let str_of_exn := fun _ : exn => lit "[Errno 32] Broken pipe" in
  let sock := mkSocket true [] [] in
  let th := mkServer (lit "192.168.1.1") 288 (Some sock) true [] in
  let g := mkGUI default_settings (Some th) (lit "go") [] false in
  send_text str_of_exn g =
    (Ok tt,
     mkGUI default_settings
       (Some (mkServer (lit "192.168.1.1") 288
                (Some (mkSocket true [[x67; x6f; x0a]] [])) true
                [connection_error
                   (lit "Failed to send message: [Errno 32] Broken pipe")]))
       (lit "go")
       [lit "Failed to send message: [Errno 32] Broken pipe";
        lit "Failed to send message"]
       false).
Proof.
  intros str_of_exn sock th g.
  exact (send_text_write_failure str_of_exn g th sock [x67; x6f; x0a]
           eq_refl eq_refl eq_refl eq_refl ltac:(discriminate) eq_refl).
Defined.

(** X12: a text that holds a surrogate cannot be encoded: the text-send
    slot then makes no [sendall] call at all, logs the worker's report
    and "Failed to send message", and keeps the field. *)
Theorem send_text_unencodable (str_of_exn : exn -> str) (g : GUI)
    (th : ServerConnectionThread) (sock : Socket)
    (Hth : server_thread g = Some th)
    (Hconn : connected th = true)
    (Hsock : socket th = Some sock)
    (Hne : strip (text_input g) <> [])
    (Hbad : forallb is_scalar (strip (text_input g)) = false) :
  send_text str_of_exn g =
    (Ok tt,
     mkGUI (uart_settings g)
       (Some (mkServer (host th) (port th) (Some sock) true
                (emitted th
                 ++ [connection_error
                       (lit "Failed to send message: "
                        ++ str_of_exn UnicodeEncodeError)])))
       (text_input g)
       (log_text g
        ++ [lit "Failed to send message: " ++ str_of_exn UnicodeEncodeError;
            lit "Failed to send message"])
       (show_hex_checkbox g)).
Proof.
  rewrite send_text_unfold, Hth, Hconn, Hsock. cbn [negb]. cbv zeta.
  destruct (format_message (uart_settings g) (MStr (strip (text_input g))))
    as [b|e] eqn:Hf.
  - exfalso. rewrite format_message_terminator in Hf.
    destruct (utf8_encode_scalar_inv _ _ _ Hf) as [Hall _].
    rewrite Hbad in Hall. discriminate Hall.
  - rewrite format_message_terminator in Hf.
    destruct (utf8_encode_raises _ _ Hf) as [-> _].
    destruct (strip (text_input g)); [contradiction|]. reflexivity.
Qed.

Lemma send_text_unencodable_witness :
  let str_of_exn := fun _ : exn => lit "surrogates not allowed" in
  let sock := mkSocket false [] [] in
  let th := mkServer (lit "192.168.1.1") 288 (Some sock) true [] in
  let g := mkGUI default_settings (Some th) [0xD800] [] false in
  send_text str_of_exn g =
    (Ok tt,
     mkGUI default_settings
       (Some (mkServer (lit "192.168.1.1") 288 (Some sock) true
                [connection_error
                   (lit "Failed to send message: surrogates not allowed")]))
       [0xD800]
       [lit "Failed to send message: surrogates not allowed";
        lit "Failed to send message"]
       false).
Proof.
  intros str_of_exn sock th g.
  exact (send_text_unencodable str_of_exn g th sock
           eq_refl eq_refl eq_refl ltac:(discriminate) eq_refl).
Defined.

(** ** The connection worker, further *)

Lemma recv_iteration_chunk (data : bytes) (self : ServerConnectionThread) :
  recv_iteration (Recv data) self =
    (Ok LoopContinue,
     if truthy data then add_emitted [server_message (chunk_text data)] self
     else self).
Proof.
  unfold recv_iteration, try_except, bind, socket_recv, ret, lift, emit,
    modify, chunk_text, add_emitted.
  destruct data as [|b0 r]; [reflexivity|]. cbn [truthy].
  destruct (utf8_decode (b0 :: r)) as [text|e] eqn:Hdec; [reflexivity|].
  rewrite (utf8_decode_raises _ _ Hdec). reflexivity.
Qed.

Lemma add_emitted_nil (self : ServerConnectionThread) :
  add_emitted [] self = self.
Proof. destruct self. unfold add_emitted. cbn. now rewrite app_nil_r. Qed.

Lemma add_emitted_app (a b : list Signal) (self : ServerConnectionThread) :
  add_emitted b (add_emitted a self) = add_emitted (a ++ b) self.
Proof. unfold add_emitted. cbn. now rewrite app_assoc. Qed.

(** The loop works through a run of chunks one by one and then goes on
    with whatever comes next. *)
Lemma recv_loop_chunks (chunks : list bytes) (rest : list loop_event) :
  forall self : ServerConnectionThread,
    connected self = true ->
    recv_loop (map (fun d => EvRecv (Recv d)) chunks ++ rest) self =
    recv_loop rest (add_emitted (chunk_messages chunks) self).
Proof.
  induction chunks as [|d chunks IH]; intros self Hc.
  - cbn [map app]. unfold chunk_messages. cbn. now rewrite add_emitted_nil.
  - cbn [map app recv_loop]. rewrite Hc, recv_iteration_chunk.
    unfold chunk_messages. cbn [filter].
    destruct (truthy d); cbn [map].
    + rewrite IH by exact Hc.
      rewrite add_emitted_app. reflexivity.
    + now rewrite IH.
Qed.

(** After a successful [connect], [run] is the receive loop started from
    the connected state; the handler of [run] never comes into play. *)
Lemma run_connected (str_of_exn : exn -> str) (script : list loop_event)
    (self : ServerConnectionThread) :
  run str_of_exn true script self =
  recv_loop script
    (mkServer (host self) (port self) (Some (mkSocket false [] [])) true
              (emitted self ++ [connection_success])).
Proof.
  unfold run, try_except, bind, emit, modify, lift, ret.
  cbn [set_socket set_connected host port socket connected emitted].
  destruct (recv_loop_returns script
              (mkServer (host self) (port self) (Some (mkSocket false [] []))
                        true (emitted self ++ [connection_success])))
    as [self' H].
  now rewrite H.
Qed.


(** X14: after a successful [connect], [run] emits [connection_success]
    and then one [server_message] for every non-empty chunk, in the order
    of arrival; an empty chunk (the peer has closed) emits nothing and does
    not end the loop. *)
Theorem run_emits_chunks_in_order (str_of_exn : exn -> str)
    (chunks : list bytes) (self : ServerConnectionThread) :
  run str_of_exn true (map (fun d => EvRecv (Recv d)) chunks) self =
    (Ok tt,
     mkServer (host self) (port self) (Some (mkSocket false [] [])) true
       (emitted self ++ connection_success :: chunk_messages chunks)).
Proof.
  rewrite run_connected.
  rewrite <- (app_nil_r (map _ chunks)), recv_loop_chunks by reflexivity.
  cbn. unfold add_emitted. cbn. now rewrite <- app_assoc.
Qed.

(** X15: a [recv] that raises ends the loop without a word: no error is
    emitted, [connected] stays true, and nothing that the socket would
    still deliver is looked at. *)
Theorem run_recv_error_is_silent (str_of_exn : exn -> str)
    (chunks : list bytes) (e : exn) (rest : list loop_event)
    (self : ServerConnectionThread) :
  run str_of_exn true
      (map (fun d => EvRecv (Recv d)) chunks ++ EvRecv (RecvRaises e) :: rest)
      self =
    (Ok tt,
     mkServer (host self) (port self) (Some (mkSocket false [] [])) true
       (emitted self ++ connection_success :: chunk_messages chunks)).
Proof.
  rewrite run_connected, recv_loop_chunks by reflexivity.
  cbn. unfold add_emitted. cbn. now rewrite <- app_assoc.
Qed.


(** ** The speech worker, further *)

(** X17: in a pass that is not paused the microphone is released whenever
    it was opened, before the worker sleeps, whichever step fails; the
    calls made depend only on how far the pass got, and the pass itself
    never raises and changes neither flag. *)
Theorem speech_pass_releases_microphone (str_of_exn : exn -> str)
    (uart : UARTFormatSettings) (env : SpeechEnv)
    (self : SpeechRecognitionThread) (Hp : paused self = false) :
  exists self' : SpeechRecognitionThread,
    speech_iteration str_of_exn uart env self = (Ok tt, self')
    /\ running self' = running self
    /\ paused self' = false
    /\ sp_trace self' =
       sp_trace self
       ++ match env_open env, env_adjust env, env_listen env with
          | Raise _, _, _ => [OpenMicrophone; Sleep]
          | Ok _, Raise _, _ =>
              [OpenMicrophone; AdjustForAmbientNoise; CloseMicrophone; Sleep]
          | Ok _, Ok _, Raise _ =>
              [OpenMicrophone; AdjustForAmbientNoise; Listen;
               CloseMicrophone; Sleep]
          | Ok _, Ok _, Ok _ =>
              [OpenMicrophone; AdjustForAmbientNoise; Listen;
               RecognizeGoogle; CloseMicrophone; Sleep]
          end.
Proof.
  destruct self as [sock run ps em tr]. cbn in Hp. subst ps.
  destruct env as [o a l r].
  run_speech. cbn [env_open env_adjust env_listen env_recognize].
  destruct o as [[]|eo]; cbn;
    [|eexists; repeat split; rewrite <- ?app_assoc; reflexivity].
  destruct a as [[]|ea]; cbn;
    [|eexists; repeat split; rewrite <- ?app_assoc; reflexivity].
  destruct l as [[]|el]; cbn;
    [|destruct el; cbn; eexists; repeat split;
      rewrite <- ?app_assoc; reflexivity].
  destruct r as [text|er]; cbn;
    [|destruct er; cbn; eexists; repeat split;
      rewrite <- ?app_assoc; reflexivity].
  destruct (format_message uart (MStr text)) as [b|ef]; cbn;
    [|destruct ef; cbn; eexists; repeat split;
      rewrite <- ?app_assoc; reflexivity].
  destruct (sock_fail sock); cbn;
    eexists; repeat split; rewrite <- ?app_assoc; reflexivity.
Qed.

Lemma speech_pass_releases_microphone_witness :
  let str_of_exn := fun _ : exn => lit "error" in
  let env := mkEnv (Ok tt) (Raise OSError) (Ok tt) (Ok (lit "go")) in
  let self := mkSpeech (mkSocket false [] []) true false [] [] in
  exists self' : SpeechRecognitionThread,
    speech_iteration str_of_exn default_settings env self = (Ok tt, self')
    /\ running self' = true
    /\ paused self' = false
    /\ sp_trace self' =
       [OpenMicrophone; AdjustForAmbientNoise; CloseMicrophone; Sleep].
Proof.
  intros str_of_exn env self.
  exact (speech_pass_releases_microphone str_of_exn default_settings env self
           eq_refl).
Defined.

(** X18: when an utterance is recognised, the text is emitted as
    [text_recognized] and the formatted message is written to the socket
    in one [sendall] call, the same bytes that [format_message] gives. *)
Theorem speech_pass_sends_recognized_text (str_of_exn : exn -> str)
    (uart : UARTFormatSettings) (env : SpeechEnv)
    (self : SpeechRecognitionThread) (text : str) (b : bytes)
    (Hp : paused self = false)
    (Ho : env_open env = Ok tt) (Ha : env_adjust env = Ok tt)
    (Hl : env_listen env = Ok tt) (Hr : env_recognize env = Ok text)
    (Hb : format_message uart (MStr text) = Ok b)
    (Hs : sock_fail (socket_conn self) = false) :
  speech_iteration str_of_exn uart env self =
    (Ok tt,
     mkSpeech
       (mkSocket false (sock_calls (socket_conn self) ++ [b])
                 (sock_wire (socket_conn self) ++ b))
       (running self) false
       (sp_emitted self ++ [text_recognized text])
       (sp_trace self
        ++ [OpenMicrophone; AdjustForAmbientNoise; Listen; RecognizeGoogle;
            CloseMicrophone; Sleep])).
Proof.
  destruct self as [sock run ps em tr]. cbn in Hp, Hs. subst ps.
  destruct env as [o a l r]. cbn in Ho, Ha, Hl, Hr. subst o a l r.
  run_speech. cbn [env_open env_adjust env_listen env_recognize].
  rewrite Hb, Hs. cbn. rewrite <- !app_assoc. reflexivity.
Qed.

Lemma speech_pass_sends_recognized_text_witness :
  let str_of_exn := fun _ : exn => lit "error" in
  let env := mkEnv (Ok tt) (Ok tt) (Ok tt) (Ok (lit "go")) in
  let self := mkSpeech (mkSocket false [] []) true false [] [] in
  speech_iteration str_of_exn default_settings env self =
    (Ok tt,
     mkSpeech (mkSocket false [[x67; x6f; x0a]] [x67; x6f; x0a]) true false
       [text_recognized (lit "go")]
       [OpenMicrophone; AdjustForAmbientNoise; Listen; RecognizeGoogle;
        CloseMicrophone; Sleep]).
Proof.
  intros str_of_exn env self.
  exact (speech_pass_sends_recognized_text str_of_exn default_settings env
           self (lit "go") [x67; x6f; x0a]
           eq_refl eq_refl eq_refl eq_refl eq_refl eq_refl eq_refl).
Defined.

(** X19: silence and unintelligible speech leave no trace outside the
    worker: when [listen] times out, or [recognize_google] raises
    [UnknownValueError], nothing is emitted and nothing is written. *)
Theorem speech_pass_silent_failures (str_of_exn : exn -> str)
    (uart : UARTFormatSettings) (env : SpeechEnv)
    (self : SpeechRecognitionThread)
    (Hp : paused self = false)
    (Ho : env_open env = Ok tt) (Ha : env_adjust env = Ok tt)
    (Hquiet : env_listen env = Raise WaitTimeoutError
              \/ (env_listen env = Ok tt
                  /\ env_recognize env = Raise UnknownValueError)) :
  exists self' : SpeechRecognitionThread,
    speech_iteration str_of_exn uart env self = (Ok tt, self')
    /\ sp_emitted self' = sp_emitted self
    /\ socket_conn self' = socket_conn self.
Proof.
  destruct self as [sock run ps em tr]. cbn in Hp. subst ps.
  destruct env as [o a l r]. cbn in Ho, Ha, Hquiet. subst o a.
  run_speech. cbn [env_open env_adjust env_listen env_recognize].
  destruct Hquiet as [->|[-> ->]]; cbn; eexists; repeat split.
Qed.

Lemma speech_pass_silent_failures_witness :
  let str_of_exn := fun _ : exn => lit "error" in
  let env := mkEnv (Ok tt) (Ok tt) (Ok tt) (Raise UnknownValueError) in
  let self := mkSpeech (mkSocket false [] []) true false [] [] in
  exists self' : SpeechRecognitionThread,
    speech_iteration str_of_exn default_settings env self = (Ok tt, self')
    /\ sp_emitted self' = []
    /\ socket_conn self' = mkSocket false [] [].
Proof.
  intros str_of_exn env self.
  apply (speech_pass_silent_failures str_of_exn default_settings env self);
    try reflexivity.
  right. split; reflexivity.
Defined.

(** X20: a failure of the recognition service is reported as "Google
    Speech Recognition service error: ..."; a microphone that cannot be
    opened or calibrated is reported as "Error in speech recognition:
    ..."; in both cases nothing is written to the socket. *)
Theorem speech_pass_reported_failures (str_of_exn : exn -> str)
    (uart : UARTFormatSettings) (env : SpeechEnv)
    (self : SpeechRecognitionThread) (e : exn)
    (Hp : paused self = false) :
  (env_open env = Ok tt -> env_adjust env = Ok tt ->
   env_listen env = Ok tt -> env_recognize env = Raise RequestError ->
   exists self',
     speech_iteration str_of_exn uart env self = (Ok tt, self')
     /\ sp_emitted self' =
        sp_emitted self
        ++ [error_occurred
              (lit "Google Speech Recognition service error: "
               ++ str_of_exn RequestError)]
     /\ socket_conn self' = socket_conn self)
  /\ (env_open env = Raise e
      \/ (env_open env = Ok tt /\ env_adjust env = Raise e) ->
      exists self',
        speech_iteration str_of_exn uart env self = (Ok tt, self')
        /\ sp_emitted self' =
           sp_emitted self
           ++ [error_occurred
                 (lit "Error in speech recognition: " ++ str_of_exn e)]
        /\ socket_conn self' = socket_conn self).
Proof.
  destruct self as [sock run ps em tr]. cbn in Hp. subst ps.
  destruct env as [o a l r].
  cbn [env_open env_adjust env_listen env_recognize].
  split.
  - intros -> -> -> ->. run_speech. cbn. eexists. repeat split.
  - intros [->|[-> ->]]; run_speech; cbn; eexists; repeat split.
Qed.

Lemma speech_pass_reported_failures_witness :
  let str_of_exn := fun _ : exn => lit "no device" in
  let env := mkEnv (Raise OSError) (Ok tt) (Ok tt) (Ok (lit "go")) in
  let self := mkSpeech (mkSocket false [] []) true false [] [] in
  exists self',
    speech_iteration str_of_exn default_settings env self = (Ok tt, self')
    /\ sp_emitted self' =
       [error_occurred (lit "Error in speech recognition: no device")]
    /\ socket_conn self' = mkSocket false [] [].
Proof.
  intros str_of_exn env self.
  apply (proj2 (speech_pass_reported_failures str_of_exn default_settings
                  env self OSError eq_refl)).
  left. reflexivity.
Defined.

(** X21: when the write fails after a recognition, the text has already
    been emitted; the failure follows as "Error in speech recognition:
    ...", nothing goes out on the wire, and the worker keeps running. *)
Theorem speech_pass_write_failure (str_of_exn : exn -> str)
    (uart : UARTFormatSettings) (env : SpeechEnv)
    (self : SpeechRecognitionThread) (text : str) (b : bytes)
    (Hp : paused self = false)
    (Ho : env_open env = Ok tt) (Ha : env_adjust env = Ok tt)
    (Hl : env_listen env = Ok tt) (Hr : env_recognize env = Ok text)
    (Hb : format_message uart (MStr text) = Ok b)
    (Hs : sock_fail (socket_conn self) = true) :
  speech_iteration str_of_exn uart env self =
    (Ok tt,
     mkSpeech
       (mkSocket true (sock_calls (socket_conn self) ++ [b])
                 (sock_wire (socket_conn self)))
       (running self) false
       (sp_emitted self
        ++ [text_recognized text;
            error_occurred
              (lit "Error in speech recognition: " ++ str_of_exn OSError)])
       (sp_trace self
        ++ [OpenMicrophone; AdjustForAmbientNoise; Listen; RecognizeGoogle;
            CloseMicrophone; Sleep])).
Proof.
  destruct self as [sock run ps em tr]. cbn in Hp, Hs. subst ps.
  destruct env as [o a l r]. cbn in Ho, Ha, Hl, Hr. subst o a l r.
  run_speech. cbn [env_open env_adjust env_listen env_recognize].
  rewrite Hb, Hs. cbn. rewrite <- !app_assoc. reflexivity.
Qed.

Lemma speech_pass_write_failure_witness :
  let str_of_exn := fun _ : exn => lit "[Errno 32] Broken pipe" in
  let env := mkEnv (Ok tt) (Ok tt) (Ok tt) (Ok (lit "go")) in
  let self := mkSpeech (mkSocket true [] []) true false [] [] in
  speech_iteration str_of_exn default_settings env self =
    (Ok tt,
     mkSpeech (mkSocket true [[x67; x6f; x0a]] []) true false
       [text_recognized (lit "go");
        error_occurred
          (lit "Error in speech recognition: [Errno 32] Broken pipe")]
       [OpenMicrophone; AdjustForAmbientNoise; Listen; RecognizeGoogle;
        CloseMicrophone; Sleep]).
Proof.
  intros str_of_exn env self.
  exact (speech_pass_write_failure str_of_exn default_settings env
           self (lit "go") [x67; x6f; x0a]
           eq_refl eq_refl eq_refl eq_refl eq_refl eq_refl eq_refl).
Defined.

Lemma speech_iteration_returns (str_of_exn : exn -> str)
    (uart : UARTFormatSettings) (env : SpeechEnv)
    (self : SpeechRecognitionThread) :
  exists self' : SpeechRecognitionThread,
    speech_iteration str_of_exn uart env self = (Ok tt, self')
    /\ running self' = running self.
Proof.
  destruct (paused self) eqn:Hp.
  - rewrite (paused_iteration _ _ _ _ Hp). eauto.
  - destruct (unpaused_iteration str_of_exn uart env self Hp)
      as (self' & rest & H & _ & Hr & _). eauto.
Qed.

(** Once [running] is false nothing more happens: the events that follow
    can only move the two flags. *)
Lemma speech_run_stopped (str_of_exn : exn -> str)
    (uart : UARTFormatSettings) (script : list speech_event) :
  forall self : SpeechRecognitionThread,
    running self = false ->
    exists self' : SpeechRecognitionThread,
      speech_run str_of_exn uart script self = (Ok tt, self')
      /\ running self' = false
      /\ socket_conn self' = socket_conn self
      /\ sp_emitted self' = sp_emitted self
      /\ sp_trace self' = sp_trace self.
Proof.
  induction script as [|ev script IH]; intros self Hr.
  - cbn. unfold ret. exists self. auto.
  - destruct ev as [env| | |]; cbn [speech_run]; unfold bind at 1.
    + unfold get. rewrite Hr. unfold ret. exists self. auto.
    + unfold modify. apply (IH (pause self)). exact Hr.
    + unfold modify. apply (IH (resume self)). exact Hr.
    + unfold modify. apply (IH (stop self)). reflexivity.
Qed.

(** X22: [stop] is final: after it the worker opens no microphone, emits
    nothing and writes nothing, whatever is asked of it later, [resume]
    included. *)
Theorem speech_stop_is_final (str_of_exn : exn -> str)
    (uart : UARTFormatSettings) (script : list speech_event)
    (self : SpeechRecognitionThread) :
  exists self' : SpeechRecognitionThread,
    speech_run str_of_exn uart (SpStop :: script) self = (Ok tt, self')
    /\ running self' = false
    /\ socket_conn self' = socket_conn self
    /\ sp_emitted self' = sp_emitted self
    /\ sp_trace self' = sp_trace self.
Proof.
  cbn [speech_run]. unfold bind at 1, modify.
  apply (speech_run_stopped str_of_exn uart script (stop self)).
  reflexivity.
Qed.

(** X23: the worker's loop never ends in an exception: whatever the
    microphone, the recognition service and the socket do, and however
    [pause], [resume] and [stop] are mixed in, [run] returns. *)
Theorem speech_run_never_raises (str_of_exn : exn -> str)
    (uart : UARTFormatSettings) (script : list speech_event) :
  forall self : SpeechRecognitionThread,
    exists self' : SpeechRecognitionThread,
      speech_run str_of_exn uart script self = (Ok tt, self').
Proof.
  induction script as [|ev script IH]; intros self.
  - cbn. unfold ret. eauto.
  - destruct ev as [env| | |]; cbn [speech_run]; unfold bind at 1.
    + unfold get. destruct (running self); [|unfold ret; eauto].
      unfold bind.
      destruct (speech_iteration_returns str_of_exn uart env self)
        as (self1 & -> & _).
      apply IH.
    + unfold modify. apply IH.
    + unfold modify. apply IH.
    + unfold modify. apply IH.
Qed.

(** ** The log slots and the buttons *)

Lemma hex_repr_join (data : bytes) :
  join_space (map format_02x (map Byte.to_N data)) = hex_repr data.
Proof.
  induction data as [|x data IH]; [reflexivity|].
  destruct data as [|y data].
  - destruct x; reflexivity.
  - change (hex_repr (x :: y :: data))
      with (hex2 x ++ SPACE :: hex_repr (y :: data)).
    rewrite <- IH.
    change (map format_02x (map Byte.to_N (x :: y :: data)))
      with (format_02x (Byte.to_N x)
            :: map format_02x (map Byte.to_N (y :: data))).
    cbn [join_space map].
    replace (format_02x (Byte.to_N x)) with (hex2 x)
      by (destruct x; reflexivity).
    reflexivity.
Qed.

Lemma utf8_decode_ascii (data : bytes) :
  forallb (fun b => Byte.to_N b <? 0x80) data = true ->
  utf8_decode data = Ok (map Byte.to_N data).
Proof.
  induction data as [|x data IH]; [reflexivity|].
  cbn [forallb map utf8_decode]. intros H.
  apply andb_true_iff in H as [Hx Hd].
  rewrite Hx, (IH Hd). reflexivity.
Qed.

(** X24: for a chunk of ASCII bytes the log line of the window, with "Show
    Hex in Log" ticked, shows the text and the hex of the very bytes that
    were received. *)
Theorem server_message_hex_of_ascii (g : GUI) (data : bytes)
    (Hascii : forallb (fun b => Byte.to_N b <? 0x80) data = true)
    (Hhex : show_hex_checkbox g = true) :
  on_server_message (chunk_text data) g =
    (Ok tt,
     mkGUI (uart_settings g) (server_thread g) (text_input g)
       (log_text g
        ++ [lit "Server: " ++ map Byte.to_N data ++ lit " [Hex: "
            ++ hex_repr data ++ lit "]"])
       (show_hex_checkbox g)).
Proof.
  unfold on_server_message, bind, get, log, modify, append_log, chunk_text.
  rewrite Hhex, (utf8_decode_ascii data Hascii), hex_repr_join.
  rewrite Hhex. reflexivity.
Qed.

Lemma server_message_hex_of_ascii_witness :
  let g := mkGUI default_settings None [] [] true in
  on_server_message (chunk_text [x4f; x4b]) g =
    (Ok tt,
     mkGUI default_settings None [] [lit "Server: OK [Hex: 4f 4b]"] true).
Proof.
  intros g.
  exact (server_message_hex_of_ascii g [x4f; x4b] eq_refl eq_refl).
Defined.

(** X25: the line logged for recognised speech.  Without the hex display
    it is "You said: " and the text, for every text.  With the hex display
    it also shows the bytes that [format_message] gives for the text, the
    ones the speech worker writes; and a text that cannot be encoded then
    makes the slot raise with nothing logged. *)
Theorem speech_recognized_log_line (g : GUI) (text : str) :
  (show_hex_checkbox g = false ->
   on_speech_recognized text g =
     (Ok tt, append_log [lit "You said: " ++ text] g))
  /\ (forall b : bytes,
        show_hex_checkbox g = true ->
        format_message (uart_settings g) (MStr text) = Ok b ->
        on_speech_recognized text g =
          (Ok tt,
           append_log [lit "You said: " ++ text ++ lit " [Hex: "
                       ++ hex_repr b ++ lit "]"] g))
  /\ (show_hex_checkbox g = true -> forallb is_scalar text = false ->
      on_speech_recognized text g = (Raise UnicodeEncodeError, g)).
Proof.
  unfold on_speech_recognized, bind, get, lift, log, modify.
  split; [|split].
  - intros ->. reflexivity.
  - intros b -> ->. reflexivity.
  - intros -> Hbad.
    destruct (format_message (uart_settings g) (MStr text)) as [b|e] eqn:Hf;
      rewrite format_message_terminator in Hf.
    + apply utf8_encode_scalar_inv in Hf as [Hall _].
      rewrite Hbad in Hall. discriminate Hall.
    + now destruct (utf8_encode_raises _ _ Hf) as [-> _].
Qed.

Lemma speech_recognized_log_line_witness :
  let g := mkGUI default_settings None [] [] true in
  on_speech_recognized (lit "go") g =
    (Ok tt,
     mkGUI default_settings None [] [lit "You said: go [Hex: 67 6f 0a]"] true)
  /\ on_speech_recognized [0xDC00] g = (Raise UnicodeEncodeError, g).
Proof.
  intros g. split.
  - exact (proj1 (proj2 (speech_recognized_log_line g (lit "go")))
             [x67; x6f; x0a] eq_refl eq_refl).
  - exact (proj2 (proj2 (speech_recognized_log_line g [0xDC00]))
             eq_refl eq_refl).
Defined.

Lemma run_slot_inv (s : slot) (w : Window) :
  window_inv w -> window_inv (run_slot s w).
Proof.
  unfold window_inv.
  destruct w as [g h p sp [bc bd bs bst bp br bse bsh] sl lbl thr].
  cbn [buttons speech_thread r_energy_threshold threshold_slider
       threshold_value].
  intros (Hc & Hs & Hh & Hsp & Hl).
  destruct sp as [[run ps]|]; cbn in Hsp;
    [destruct Hsp as (-> & Hst & Hpb & Hrb)
    |destruct Hsp as (Hst & Hpb & Hrb)];
    destruct s; cbn [run_slot];
    unfold on_connection_success, disconnect_from_server,
      start_speech_recognition, stop_speech_recognition,
      pause_speech_recognition, resume_speech_recognition,
      update_threshold, is_running;
    cbn [speech_thread gui sh_running];
    try destruct (not_connected g); cbn;
    try destruct (server_thread g);
    cbn; repeat split; first [assumption | reflexivity].
Qed.

(** X26: the buttons never contradict the state of the window.  From the
    window as it starts, and through any sequence of the slots above:
    Connect is enabled exactly when Disconnect is not; Send and Send Hex
    are enabled exactly when Disconnect is; while there is a speech worker
    it is running, Stop is enabled and exactly one of Pause and Resume is,
    according to the worker's [paused] flag; with no worker all three are
    disabled; and the sensitivity label shows the slider's value. *)
Theorem window_invariant (mic_line : str) (slots : list slot) :
  window_inv (run_slots slots (initial_window mic_line))
  /\ (forall w : Window, window_inv w -> window_inv (run_slots slots w)).
Proof.
  assert (H : forall w, window_inv w -> window_inv (run_slots slots w)).
  { induction slots as [|s slots IH]; intros w Hw; [exact Hw|].
    cbn [run_slots fold_left]. apply IH. now apply run_slot_inv. }
  split; [|exact H].
  apply H. unfold window_inv. cbn. repeat split.
Qed.

Lemma window_invariant_witness :
  let th := mkServer (lit "192.168.1.1") 288 (Some (mkSocket false [] []))
                     true [] in
  let w := mkWindow (mkGUI default_settings (Some th) [] [] false)
             (lit "192.168.1.1") 288%Z None
             (mkButtons true false false false false false false false)
             300 (lit "300") 300 in
  window_inv
    (run_slots [SlotConnectionSuccess; SlotStart; SlotPause; SlotThreshold 450;
                SlotDisconnect] w).
Proof.
  intros th w.
  apply (proj2 (window_invariant [] [SlotConnectionSuccess; SlotStart;
                                     SlotPause; SlotThreshold 450;
                                     SlotDisconnect]) w).
  unfold window_inv. cbn. repeat split.
Defined.

(** X27: after [disconnect_from_server] no worker is left: the speech
    worker is not running, the window has no connection worker, Connect is
    the only one of Connect, Disconnect, Start, Send and Send Hex that is
    enabled, and the send slots and Start only answer "Not connected to
    server". *)
Theorem disconnect_from_server_closes (str_of_exn : exn -> str)
    (w : Window) :
  let w' := disconnect_from_server w in
  let refused := (Ok tt, append_log [lit "Not connected to server"] (gui w')) in
  is_running w' = false
  /\ server_thread (gui w') = None
  /\ connect_button (buttons w') = true
  /\ disconnect_button (buttons w') = false
  /\ start_button (buttons w') = false
  /\ send_button (buttons w') = false
  /\ send_hex_button (buttons w') = false
  /\ send_text str_of_exn (gui w') = refused
  /\ send_hex (gui w') = refused
  /\ start_speech_recognition w' = wlog (lit "Not connected to server") w'.
Proof.
  cbv zeta. rewrite send_text_unfold, send_hex_unfold.
  unfold start_speech_recognition, not_connected.
  destruct w as [[u st text lines hex] h p sp b sl lbl thr].
  unfold disconnect_from_server, is_running, stop_speech_recognition,
    is_running.
  destruct sp as [[[|] ps]|], st as [th|]; cbn; repeat split.
Qed.

(** X28: Pause and then Resume bring a listening window back to where it
    was: the worker's flag and every button as before, with the two lines
    "Speech recognition paused" and "Speech recognition resumed" added to
    the log. *)
Theorem pause_resume_round_trip (w : Window) (h : SpeechHandle)
    (Hinv : window_inv w)
    (Hsp : speech_thread w = Some h)
    (Hp : sh_paused h = false) :
  resume_speech_recognition (pause_speech_recognition w) =
  wlog (lit "Speech recognition resumed")
       (wlog (lit "Speech recognition paused") w).
Proof.
  destruct w as [g hst p sp [bc bd bs bst bp br bse bsh] sl lbl thr].
  cbn in Hsp. subst sp. destruct h as [run ps]. cbn in Hp. subst ps.
  destruct Hinv as (_ & _ & _ & (Hr & _ & Hpb & Hrb) & _).
  cbn in Hr, Hpb, Hrb. subst run bp br.
  reflexivity.
Qed.

Lemma pause_resume_round_trip_witness :
  let w := mkWindow (mkGUI default_settings None [] [] false)
             (lit "192.168.1.1") 288%Z (Some (mkHandle true false))
             (mkButtons false true false true true false true true)
             300 (lit "300") 300 in
  resume_speech_recognition (pause_speech_recognition w) =
  wlog (lit "Speech recognition resumed")
       (wlog (lit "Speech recognition paused") w).
Proof.
  intros w.
  apply (pause_resume_round_trip w (mkHandle true false));
    [unfold window_inv; cbn; repeat split | reflexivity | reflexivity].
Defined.
